(** * hono-universal-cache: the cache-aside core, embedded and verified

    The development follows the TypeScript sources:
    - [src/types.ts]   -> [CachedResponse], [CacheMetadata], [CacheOptions]
    - [src/cache.ts]   -> module [CacheManager]
    - [packages/hono-universal-cache/src/utils.ts] and [.../src/index.ts]
                       -> module [Pkg], the published middleware
    - [src/utils.ts] and [src/index.ts]
                       -> module [Legacy], the earlier copy of the middleware
                          kept at the repository root

    Both copies of the middleware import the same [CacheManager] and the
    same option type.  They differ in the default key (the packaged copy
    puts the method in front of the URL), in the admission check (only the
    root copy looks at [Vary]) and in how the write is scheduled.  The
    general statements about the middleware are made for [Pkg]; [Legacy] is
    there for comparison and for what the root copy does differently.

    JavaScript numbers are modelled as [Z] (timestamps and TTLs are integers
    far below 2^53, where double arithmetic is exact), strings as [string],
    promises by the order in which their effects take place, exceptions by
    the [Exc] type.  The platform objects the sources call into ([Headers],
    [Response], plain objects, [Date.now], Hono's [Context], the unstorage
    backend) are modelled in the first part of the file, after the WHATWG
    Fetch Standard, ECMA-262 and Hono's [Context] class. *)

From Stdlib Require Import ZArith String Ascii List Lia Bool.
From stdpp Require Import base tactics option list sorting strings gmap.

Local Open Scope string_scope.
Local Open Scope Z_scope.

(** ** Exceptions and effects *)

Inductive JsError : Type :=
| TypeError (msg : string)
| RangeError (msg : string)
| StorageError (msg : string)
| PlainError (msg : string).       (* [throw Error(msg)] *)

(** The result of evaluating code that may throw. *)
Inductive Exc (A : Type) : Type :=
| Ok (a : A)
| Throw (e : JsError).

Arguments Ok {A} a.
Arguments Throw {A} e.

Definition is_ok {A} (x : Exc A) : bool :=
  match x with Ok _ => true | Throw _ => false end.

(** A line written with [console.error] / [console.warn]. *)
Inductive LogLine : Type :=
| ConsoleError (label : string) (e : JsError)
| ConsoleWarn (label : string).

(** ** Strings *)

(** Byte-lowercasing of one character (A-Z only), as Fetch does for header
    names. *)
Definition lower_ascii (a : ascii) : ascii :=
  let n := nat_of_ascii a in
  if ((65 <=? n)%nat && (n <=? 90)%nat)%bool then ascii_of_nat (n + 32) else a.

Fixpoint lower (s : string) : string :=
  match s with
  | EmptyString => EmptyString
  | String a s' => String (lower_ascii a) (lower s')
  end.

(** [s.includes(c)] for a one-character needle. *)
Fixpoint includes_char (c : ascii) (s : string) : bool :=
  match s with
  | EmptyString => false
  | String a s' => if Ascii.eqb a c then true else includes_char c s'
  end.

(** "Byte less than or equal", the order Fetch sorts header names with. *)
Definition str_le (a b : string) : Prop := String.leb a b = true.

#[global] Instance str_le_dec a b : Decision (str_le a b).
Proof. unfold str_le. apply _. Defined.

#[global] Instance str_le_total : Total str_le.
Proof. intros a b. apply String.leb_total. Qed.

(** ** Header lists (Fetch Standard, section "Headers") *)

(** A header list keeps the headers as they were appended: name in its
    original case, in insertion order, repeated names allowed. *)
Abbreviation HeaderList := (list (string * string)) (only parsing).

(** Byte-case-insensitive match of header names. *)
Definition name_match (name : string) (h : string * string) : Prop :=
  lower h.1 = lower name.

#[global] Instance name_match_dec name h : Decision (name_match name h).
Proof. unfold name_match. apply _. Defined.

(** The values of all headers whose name matches, in order. *)
Definition Headers_values (hl : HeaderList) (name : string) : list string :=
  (filter (name_match name) hl).*2.

(** [headers.get(name)]: [null] when absent, else the values joined by
    ", " (0x2C 0x20). *)
Definition Headers_get (hl : HeaderList) (name : string) : option string :=
  match Headers_values hl name with
  | [] => None
  | vs => Some (String.concat ", " vs)
  end.

(** [headers.getSetCookie()]. *)
Definition Headers_getSetCookie (hl : HeaderList) : list string :=
  Headers_values hl "set-cookie".

(** "Convert header names to a sorted-lowercase set". *)
Definition sorted_lowercase_names (hl : HeaderList) : list string :=
  merge_sort str_le (remove_dups (lower <$> hl.*1)).

(** "Sort and combine": what iteration ([forEach], [entries]) yields.
    Every [set-cookie] value is listed on its own; any other name appears
    once with its combined value. *)
Definition sort_and_combine (hl : HeaderList) : list (string * string) :=
  n ← sorted_lowercase_names hl;
  if decide (n = "set-cookie")
  then (λ v, (n, v)) <$> Headers_values hl n
  else [(n, String.concat ", " (Headers_values hl n))].

(** [headers.forEach((value, key) => f)] threading an accumulator. *)
Definition Headers_forEach {A} (hl : HeaderList)
    (f : A → string → string → A) (acc : A) : A :=
  foldl (λ a kv, f a kv.2 kv.1) acc (sort_and_combine hl).

(** ** Plain objects used as string maps (ECMA-262, ordinary objects)

    [Record<string, string>] values are ordinary objects created by [{}]:
    own properties in creation order, enumerated with the array-index keys
    first (OrdinaryOwnPropertyKeys). *)
Abbreviation JsRecord := (list (string * string)) (only parsing).

Definition digit_of (a : ascii) : option N :=
  let n := N_of_ascii a in
  if ((48 <=? n)%N && (n <=? 57)%N)%bool then Some (n - 48)%N else None.

Fixpoint parse_digits (acc : N) (s : string) : option N :=
  match s with
  | EmptyString => Some acc
  | String a s' =>
      match digit_of a with
      | Some d => parse_digits (acc * 10 + d)%N s'
      | None => None
      end
  end.

(** A property key is an array index when it is the canonical decimal form
    of an integer in [0, 2^32 - 2]. *)
Definition array_index (k : string) : option N :=
  match k with
  | EmptyString => None
  | String a rest =>
      if (Ascii.eqb a "0" && negb (String.eqb rest ""))%bool then None
      else match parse_digits 0 k with
           | Some n => if (n <=? 4294967294)%N then Some n else None
           | None => None
           end
  end.

Definition is_array_index (p : string * string) : Prop :=
  is_Some (array_index p.1).

#[global] Instance is_array_index_dec p : Decision (is_array_index p).
Proof. unfold is_array_index. apply _. Defined.

Definition index_le (p q : string * string) : Prop :=
  (default 0 (array_index p.1) <= default 0 (array_index q.1))%N.

#[global] Instance index_le_dec p q : Decision (index_le p q).
Proof. unfold index_le. apply _. Defined.

#[global] Instance index_le_total : Total index_le.
Proof. intros p q. unfold index_le. lia. Qed.

(** [o[k]] *)
Fixpoint record_get (o : JsRecord) (k : string) : option string :=
  match o with
  | [] => None
  | (k', v) :: o' => if decide (k' = k) then Some v else record_get o' k
  end.

Fixpoint record_replace (o : JsRecord) (k v : string) : JsRecord :=
  match o with
  | [] => []
  | (k', v') :: o' =>
      if decide (k' = k) then (k', v) :: o' else (k', v') :: record_replace o' k v
  end.

(** [o[k] = v] on an object created by [{}].  The key [__proto__] reaches
    the accessor of [Object.prototype], which ignores a string; an existing
    property keeps its place; a new one is added last. *)
Definition record_set (o : JsRecord) (k v : string) : JsRecord :=
  if decide (k = "__proto__") then o
  else if decide (k ∈ o.*1) then record_replace o k v
  else (o ++ [(k, v)])%list.

(** The own enumerable properties in enumeration order. *)
Definition own_entries (o : JsRecord) : list (string * string) :=
  (merge_sort index_le (filter is_array_index o)
   ++ filter (λ p, ¬ is_array_index p) o)%list.

Definition own_keys (o : JsRecord) : list string := (own_entries o).*1.

(** [new Headers(init)] for a record [init]: every own property is appended
    in enumeration order.  The names and values stored by this program were
    read out of a [Headers] object, so the constructor's validation of names
    and values is not modelled. *)
Definition Headers_new (init : JsRecord) : HeaderList := own_entries init.

(** ** Responses (Fetch Standard, section "Response class") *)

Record Response : Type := mkResponse {
  res_body : option string;     (* [None] is the null body *)
  res_bodyUsed : bool;
  res_headers : HeaderList;
  res_status : Z;
  res_statusText : string
}.

(** What a [Response] is constructed from: a string carries a MIME type,
    a stream does not. *)
Inductive BodyInit : Type :=
| BodyString (s : string)
| BodyStream (s : string).

Definition body_text (b : BodyInit) : string :=
  match b with BodyString s | BodyStream s => s end.

Record ResponseInit : Type := mkInit {
  init_status : Z;
  init_statusText : string;
  init_headers : HeaderList     (* a [Headers] object *)
}.

Definition null_body_status (s : Z) : bool :=
  (s =? 101) || (s =? 103) || (s =? 204) || (s =? 205) || (s =? 304).

(** reason-phrase = *( HTAB / SP / VCHAR / obs-text ) *)
Definition reason_phrase_char (a : ascii) : bool :=
  let n := N_of_ascii a in
  ((n =? 9) || ((32 <=? n) && (n <=? 126)) || (128 <=? n))%N.

Fixpoint is_reason_phrase (s : string) : bool :=
  match s with
  | EmptyString => true
  | String a s' => reason_phrase_char a && is_reason_phrase s'
  end.

Definition Headers_has (hl : HeaderList) (name : string) : bool :=
  bool_decide (Headers_values hl name ≠ []).

(** [new Response(body, init)], "initialize a response": a status outside
    200..599 is a RangeError, a malformed status text a TypeError, a body
    together with a null body status a TypeError; the response's header list
    is filled from [init.headers], a [Headers] object, which is read by
    iteration; a string body brings [Content-Type: text/plain;charset=UTF-8]
    when no such header is given. *)
Definition Response_new (body : option BodyInit) (init : ResponseInit)
    : Exc Response :=
  if (init_status init <? 200) || (599 <? init_status init) then
    Throw (RangeError "init status must be in the range of 200 to 599")
  else if negb (is_reason_phrase (init_statusText init)) then
    Throw (TypeError "invalid statusText")
  else if bool_decide (body ≠ None) && null_body_status (init_status init) then
    Throw (TypeError "Response with null body status cannot have body")
  else
    let hl := sort_and_combine (init_headers init) in
    let hl' :=
      match body with
      | Some (BodyString _) =>
          if Headers_has hl "content-type" then hl
          else (hl ++ [("Content-Type", "text/plain;charset=UTF-8")])%list
      | _ => hl
      end in
    Ok {| res_body := body_text <$> body;
          res_bodyUsed := false;
          res_headers := hl';
          res_status := init_status init;
          res_statusText := init_statusText init |}.

(** [await response.text()]: a body that was already read rejects; the
    null body reads as the empty string. *)
Definition Response_text (r : Response) : Exc string :=
  if res_bodyUsed r then Throw (TypeError "Body is unusable")
  else Ok (default "" (res_body r)).

(** [response.clone()] *)
Definition Response_clone (r : Response) : Exc Response :=
  if res_bodyUsed r then Throw (TypeError "Response body is already used")
  else Ok r.

(** The responses a program can hold: what [new Response] accepts. *)
Record Response_valid (r : Response) : Prop := {
  valid_status : 200 <= res_status r <= 599;
  valid_statusText : is_reason_phrase (res_statusText r) = true;
  valid_body : null_body_status (res_status r) = true → res_body r = None
}.

(** ** src/types.ts *)

(** Serialized representation of a cached [Response]. *)
Record CachedResponse : Type := mkCached {
  body : string;
  headers : JsRecord;
  status : Z;
  statusText : string;
  cachedAt : Z
}.

(** Metadata stored alongside cached entries; [mtime] is the [Date] built
    from [cachedAt], kept as its epoch milliseconds. *)
Record CacheMetadata : Type := mkMeta {
  mtime : Z;
  expires : option Z
}.

Definition DEFAULT_CACHEABLE_STATUS_CODES : list Z := [200].

(** ** The storage backend (the unstorage [Storage] interface)

    The backend is an external collaborator: every operation may change the
    backend state and may throw. *)
Record Storage (σ : Type) : Type := mkStorage {
  getItem : string → σ → Exc (option CachedResponse) * σ;
  setItem : string → CachedResponse → σ → Exc unit * σ;
  setMeta : string → CacheMetadata → σ → Exc unit * σ;
  removeItem : string → σ → Exc unit * σ;
  clear : σ → Exc unit * σ;
  getKeys : σ → Exc (list string) * σ
}.

Arguments getItem {σ} _ _ _.
Arguments setItem {σ} _ _ _ _.
Arguments setMeta {σ} _ _ _ _.
Arguments removeItem {σ} _ _ _.
Arguments clear {σ} _ _.
Arguments getKeys {σ} _ _.

(** What the program can observe and change: the backend state and the
    console. *)
Record World (σ : Type) : Type := mkWorld {
  store : σ;
  console : list LogLine
}.

Arguments mkWorld {σ} _ _.
Arguments store {σ} _.
Arguments console {σ} _.

(** Computations that read and write the world and may throw; effects made
    before a throw stay. *)
Definition M (σ A : Type) : Type := World σ → Exc A * World σ.

Definition ret {σ A} (a : A) : M σ A := λ w, (Ok a, w).

Definition bind {σ A B} (m : M σ A) (k : A → M σ B) : M σ B :=
  λ w, match m w with
       | (Ok a, w') => k a w'
       | (Throw e, w') => (Throw e, w')
       end.

(** [try { m } catch (e) { h e }] *)
Definition try_catch {σ A} (m : M σ A) (h : JsError → M σ A) : M σ A :=
  λ w, match m w with
       | (Ok a, w') => (Ok a, w')
       | (Throw e, w') => h e w'
       end.

(** Evaluation of a pure expression that may throw. *)
Definition lift_exc {σ A} (x : Exc A) : M σ A := λ w, (x, w).

(** [await storage.op(...)] *)
Definition call {σ A} (op : σ → Exc A * σ) : M σ A :=
  λ w, let (r, s) := op (store w) in (r, mkWorld s (console w)).

Definition console_log {σ} (l : LogLine) : M σ unit :=
  λ w, (Ok tt, mkWorld (store w) (console w ++ [l])%list).

Declare Scope js_scope.
Delimit Scope js_scope with js.
Notation "x <- m ;; k" := (bind m (λ x, k))
  (at level 100, m at next level, right associativity) : js_scope.
Notation "m ;; k" := (bind m (λ _, k))
  (at level 100, right associativity) : js_scope.
Local Open Scope js_scope.

(** JavaScript truthiness of an optional number ([!ttl] is its negation):
    [undefined] and [0] are falsy. *)
Definition truthy (n : option Z) : bool :=
  match n with
  | Some n => negb (n =? 0)
  | None => false
  end.

(** ** utils.ts: [isExpired], [isCacheableStatus]

    The two copies of [utils.ts] agree on these functions.  [now] is the
    value [Date.now()] returns inside the call. *)
Definition isExpired (now : Z) (cachedAt : Z) (ttl : option Z) : bool :=
  if negb (truthy ttl) then false
  else
    let expiresAt := cachedAt + default 0 ttl * 1000 in
    now >? expiresAt.

Definition isCacheableStatus (status : Z) (cacheableStatusCodes : gset Z) : bool :=
  bool_decide (status ∈ cacheableStatusCodes).

(** [storage.clear()], under a name the class below does not shadow. *)
Definition storage_clear {σ} (s : Storage σ) : σ → Exc unit * σ := clear s.

(** ** src/cache.ts: class [CacheManager] *)
Module CacheManager.
Section Methods.
Context {σ : Type}.

(** The fields set by the constructor. *)
Record t : Type := new {
  storage : Storage σ;
  ttl : option Z
}.

Variable this : t.

(** [serializeResponse]: the body as text, the headers copied into a plain
    object by [forEach], the status line, and the time of the call. *)
Definition serializeResponse (response : Response) (now : Z)
    : Exc CachedResponse :=
  match Response_text response with
  | Throw e => Throw e
  | Ok body =>
      let headers :=
        Headers_forEach (res_headers response)
          (λ headers value key, record_set headers key value) [] in
      Ok {| body := body;
            headers := headers;
            status := res_status response;
            statusText := res_statusText response;
            cachedAt := now |}
  end.

(** [deserializeResponse] *)
Definition deserializeResponse (cached : CachedResponse) : Exc Response :=
  let headers := Headers_new (headers cached) in
  Response_new (Some (BodyString (body cached)))
    {| init_status := status cached;
       init_statusText := statusText cached;
       init_headers := headers |}.

(** [delete(key)] *)
Definition delete (key : string) : M σ unit :=
  try_catch
    (call (removeItem (storage this) key))
    (λ error, console_log (ConsoleError "Cache deletion error:" error)).

(** [get(key)] *)
Definition get (key : string) (now : Z) : M σ (option Response) :=
  try_catch
    (cached <- call (getItem (storage this) key);;
     match cached with
     | None => ret None
     | Some cached =>
         if isExpired now (cachedAt cached) (ttl this) then
           (delete key;; ret None)
         else
           (r <- lift_exc (deserializeResponse cached);; ret (Some r))
     end)
    (λ error,
       console_log (ConsoleError "Cache retrieval error:" error);;
       ret None).

(** [set(key, response)] *)
Definition set (key : string) (response : Response) (now : Z) : M σ unit :=
  try_catch
    (serialized <- lift_exc (serializeResponse response now);;
     call (setItem (storage this) key serialized);;
     if truthy (ttl this) then
       let metadata :=
         {| mtime := cachedAt serialized;
            expires := Some (cachedAt serialized + default 0 (ttl this) * 1000) |} in
       call (setMeta (storage this) key metadata)
     else ret tt)
    (λ error, console_log (ConsoleError "Cache storage error:" error)).

(** [has(key)] *)
Definition has (key : string) (now : Z) : M σ bool :=
  try_catch
    (cached <- call (getItem (storage this) key);;
     match cached with
     | None => ret false
     | Some cached => ret (negb (isExpired now (cachedAt cached) (ttl this)))
     end)
    (λ _, ret false).

(** [clear()] *)
Definition clear : M σ unit :=
  try_catch
    (call (storage_clear (storage this)))
    (λ error, console_log (ConsoleError "Cache clear error:" error)).

(** [keys()] *)
Definition keys : M σ (list string) :=
  try_catch
    (call (getKeys (storage this)))
    (λ error,
       console_log (ConsoleError "Cache keys retrieval error:" error);;
       ret []).
End Methods.

Arguments t σ : clear implicits.
Arguments new {σ} _ _.
End CacheManager.

(** ** An in-process backend

    A map from keys to entries with a second map for the metadata, in which
    no operation throws and [removeItem] leaves the metadata alone.  Every
    key is kept as it is given.  The storage object that unstorage's
    [createStorage()] returns spells keys in its own way before they reach
    its driver (the repository's tests find ["custom-/path"] listed as
    ["custom-:path"]), so two keys may name one entry there; the statements
    made on this backend are about one key at a time and do not depend on
    how a key is spelled inside. *)
Record MemState : Type := mkMem {
  mem_items : gmap string CachedResponse;
  mem_meta : gmap string CacheMetadata
}.

Definition memoryStorage : Storage MemState :=
  {| getItem := λ k s, (Ok (mem_items s !! k), s);
     setItem := λ k v s, (Ok tt, mkMem (<[k := v]> (mem_items s)) (mem_meta s));
     setMeta := λ k m s, (Ok tt, mkMem (mem_items s) (<[k := m]> (mem_meta s)));
     removeItem := λ k s, (Ok tt, mkMem (delete k (mem_items s)) (mem_meta s));
     clear := λ s, (Ok tt, mkMem ∅ ∅);
     getKeys := λ s, (Ok (map_to_list (mem_items s)).*1, s) |}.

Definition empty_mem : MemState := mkMem ∅ ∅.

(** A backend that is down: every operation throws and changes nothing. *)
Definition brokenStorage {σ} : Storage σ :=
  let down := StorageError "connection refused" in
  {| getItem := λ _ s, (Throw down, s);
     setItem := λ _ _ s, (Throw down, s);
     setMeta := λ _ _ s, (Throw down, s);
     removeItem := λ _ s, (Throw down, s);
     clear := λ s, (Throw down, s);
     getKeys := λ s, (Throw down, s) |}.

(** ** The request context (Hono's [Context], as far as the middleware
    reads it) *)

(** The execution context of the request; [waitUntil] tells whether the
    hook is there. *)
Record ExecutionContext : Type := mkExecutionCtx {
  waitUntil : bool
}.

Record Context : Type := mkContext {
  req_method : string;          (* [c.req.method], as received *)
  req_url : string;             (* [c.req.url], query string included *)
  req_headers : HeaderList;
  executionCtx : option ExecutionContext   (* [None]: the request has none *)
}.

(** Reading [c.executionCtx]: the getter of Hono's [Context] throws when the
    request came without an execution context. *)
Definition get_executionCtx (c : Context) : Exc ExecutionContext :=
  match executionCtx c with
  | Some ec => Ok ec
  | None => Throw (PlainError "This context has no ExecutionContext")
  end.

(** Does the environment offer a hook to run work after the response? *)
Definition offers_waitUntil (c : Context) : bool :=
  match executionCtx c with
  | Some ec => waitUntil ec
  | None => false
  end.

(** ** types.ts: [CacheOptions]

    [keyGenerator] and a [cacheName] function are callbacks of the
    application; the record holds what they resolve to.  A callback that
    throws or rejects is the subject of [Pkg.handler] below. *)
Record CacheOptions (σ : Type) : Type := mkOptions {
  cacheName : string + (Context → string);
  cacheableStatusCodes : option (list Z);
  keyGenerator : option (Context → string);
  storage : option (Storage σ);
  ttl : option Z
}.

Arguments mkOptions {σ} _ _ _ _ _.
Arguments cacheName {σ} _.
Arguments cacheableStatusCodes {σ} _.
Arguments keyGenerator {σ} _.
Arguments storage {σ} _.
Arguments ttl {σ} _.

(** ** What one run of the middleware leaves behind *)

(** The pending call [cacheManager.set(key, res)]. *)
Record PersistTask : Type := mkTask {
  task_key : string;
  task_response : Response
}.

(** How the write of the response was scheduled. *)
Inductive Persist : Type :=
| NotAttempted                      (* [set] was never called *)
| Awaited                           (* [await cachePromise]: done on return *)
| WaitUntil (task : PersistTask)    (* handed to [executionCtx.waitUntil] *)
| Detached (task : PersistTask).    (* promise neither awaited nor registered *)

Record Outcome : Type := mkOutcome {
  out_response : Response;   (* what the caller receives *)
  out_hit : bool;            (* served from the cache, downstream not run *)
  out_persist : Persist
}.

(** The work a pending write does once it runs, at time [now]. *)
Definition run_task {σ} (cm : CacheManager.t σ) (task : PersistTask) (now : Z)
    : M σ unit :=
  CacheManager.set cm (task_key task) (task_response task) now.

(** [new Response(cachedResponse.body, cachedResponse)]: the body stream of
    the cached response, and its status line and headers read as the init
    dictionary. *)
Definition Response_rewrap (cachedResponse : Response) : Exc Response :=
  Response_new (BodyStream <$> res_body cachedResponse)
    {| init_status := res_status cachedResponse;
       init_statusText := res_statusText cachedResponse;
       init_headers := res_headers cachedResponse |}.

(** The instance state [universalCache(options)] sets up once. *)
Section Setup.
Context {σ : Type}.
(** [createStorage()], the default backend. *)
Variable createStorage : Storage σ.
Variable options : CacheOptions σ.

Definition resolveStorage : Storage σ * list LogLine :=
  match storage options with
  | Some s => (s, [])
  | None =>
      (createStorage,
       [ConsoleWarn "No storage provided, using default in-memory storage"])
  end.

Definition cacheManager : CacheManager.t σ :=
  CacheManager.new resolveStorage.1 (ttl options).

Definition statusCodes : gset Z :=
  list_to_set (default DEFAULT_CACHEABLE_STATUS_CODES (cacheableStatusCodes options)).

Definition resolveCacheName (c : Context) : string :=
  match cacheName options with
  | inl name => name
  | inr f => f c
  end.
End Setup.

(** ** packages/hono-universal-cache/src: [utils.ts] and [index.ts] *)
Module Pkg.
Section Middleware.
Context {σ : Type}.
Variable createStorage : Storage σ.
Variable options : CacheOptions σ.
(** [getRuntimeKey()] of hono/adapter. *)
Variable runtimeKey : string.

(** [generateCacheKey]: the method is part of the default key. *)
Definition generateCacheKey (c : Context)
    (keyGenerator : option (Context → string)) : string :=
  match keyGenerator with
  | Some keyGenerator => keyGenerator c
  | None => req_method c ++ ":" ++ req_url c
  end.

(** The middleware handler.  [next] is the response the downstream
    handlers leave in [c.res]; [t_lookup] and [t_persist] are the values
    of [Date.now()] during the lookup and during an awaited write.  In the
    Workers branch [c?.executionCtx?.waitUntil?.(cachePromise)] reads
    [c.executionCtx] first: without an execution context the getter throws,
    and the write that [cacheManager.set] has already started is left on its
    own. *)
Definition universalCache (c : Context) (next : Response)
    (t_lookup t_persist : Z) : M σ Outcome :=
  let cacheManager := cacheManager createStorage options in
  let cacheableStatusCodes := statusCodes options in
  let baseKey := generateCacheKey c (keyGenerator options) in
  let cacheName := resolveCacheName options c in
  let key := cacheName ++ ":" ++ baseKey in
  cachedResponse <- CacheManager.get cacheManager key t_lookup;;
  match cachedResponse with
  | Some cachedResponse =>
      r <- lift_exc (Response_rewrap cachedResponse);;
      ret (mkOutcome r true NotAttempted)
  | None =>
      (* await next() *)
      if negb (isCacheableStatus (res_status next) cacheableStatusCodes) then
        ret (mkOutcome next false NotAttempted)
      else
        res <- lift_exc (Response_clone next);;
        let cachePromise := mkTask key res in
        if String.eqb runtimeKey "workerd" then
          ec <- lift_exc (get_executionCtx c);;
          if waitUntil ec
          then ret (mkOutcome next false (WaitUntil cachePromise))
          else ret (mkOutcome next false (Detached cachePromise))
        else
          (run_task cacheManager cachePromise t_persist;;
           ret (mkOutcome next false Awaited))
  end.
End Middleware.

(** The handler with its callbacks.  [generateCacheKey] awaits
    [keyGenerator(c)] and the handler awaits [options.cacheName(c)], both
    outside any [try] (utils.ts lines 15-16, index.ts lines 120-125): a
    callback that throws or rejects makes the handler reject with that
    error before the cache is touched.  When both return, the handler goes
    on as [universalCache] does with what they returned. *)
Definition handler {σ} (createStorage : Storage σ)
    (cacheName : string + (Context → Exc string))
    (cacheableStatusCodes : option (list Z))
    (keyGenerator : option (Context → Exc string))
    (storage : option (Storage σ)) (ttl : option Z)
    (runtimeKey : string) (c : Context) (next : Response)
    (t_lookup t_persist : Z) : M σ Outcome :=
  baseKey <- lift_exc match keyGenerator with
                      | Some keyGenerator => keyGenerator c
                      | None => Ok (req_method c ++ ":" ++ req_url c)
                      end;;
  name <- lift_exc match cacheName with
                   | inl name => Ok name
                   | inr cacheName => cacheName c
                   end;;
  universalCache createStorage
    (mkOptions (inl name) cacheableStatusCodes (Some (λ _, baseKey)) storage ttl)
    runtimeKey c next t_lookup t_persist.
End Pkg.

(** ** src: [utils.ts] and [index.ts] (the copy at the repository root) *)
Module Legacy.
Section Middleware.
Context {σ : Type}.
Variable createStorage : Storage σ.
Variable options : CacheOptions σ.

(** [generateCacheKey]: the default key is the URL alone. *)
Definition generateCacheKey (c : Context)
    (keyGenerator : option (Context → string)) : string :=
  match keyGenerator with
  | Some keyGenerator => keyGenerator c
  | None => req_url c
  end.

(** [shouldSkipCache] *)
Definition shouldSkipCache (res : Response) : bool :=
  let vary := Headers_get (res_headers res) "Vary" in
  match vary with
  | Some vary => includes_char "*" vary
  | None => false
  end.

(** The handler of the root copy.  [c.executionCtx?.waitUntil] reads
    [c.executionCtx] as well, and throws without an execution context. *)
Definition universalCache (c : Context) (next : Response)
    (t_lookup : Z) : M σ Outcome :=
  let cacheManager := cacheManager createStorage options in
  let cacheableStatusCodes := statusCodes options in
  let baseKey := generateCacheKey c (keyGenerator options) in
  let cacheName := resolveCacheName options c in
  let key := cacheName ++ ":" ++ baseKey in
  cachedResponse <- CacheManager.get cacheManager key t_lookup;;
  match cachedResponse with
  | Some cachedResponse =>
      r <- lift_exc (Response_rewrap cachedResponse);;
      ret (mkOutcome r true NotAttempted)
  | None =>
      (* await next() *)
      if negb (isCacheableStatus (res_status next) cacheableStatusCodes) then
        ret (mkOutcome next false NotAttempted)
      else if shouldSkipCache next then
        ret (mkOutcome next false NotAttempted)
      else
        res <- lift_exc (Response_clone next);;
        let cachePromise := mkTask key res in
        ec <- lift_exc (get_executionCtx c);;
        if waitUntil ec
        then ret (mkOutcome next false (WaitUntil cachePromise))
        else ret (mkOutcome next false (Detached cachePromise))
  end.
End Middleware.
End Legacy.

(** ** Vocabulary of the statements *)

(** Whether a lookup found something. *)
Definition found {A} (x : Exc (option A)) : bool :=
  match x with
  | Ok (Some _) => true
  | _ => false
  end.

(** The same backend with another [setMeta] / [removeItem]: used to say
    that an operation is never called. *)
Definition with_setMeta {σ} (st : Storage σ)
    (f : string → CacheMetadata → σ → Exc unit * σ) : Storage σ :=
  {| getItem := getItem st; setItem := setItem st; setMeta := f;
     removeItem := removeItem st; clear := clear st; getKeys := getKeys st |}.

Definition with_removeItem {σ} (st : Storage σ)
    (f : string → σ → Exc unit * σ) : Storage σ :=
  {| getItem := getItem st; setItem := setItem st; setMeta := setMeta st;
     removeItem := f; clear := clear st; getKeys := getKeys st |}.

(** The headers object [serializeResponse] builds. *)
Definition serialized_headers (hl : HeaderList) : JsRecord :=
  Headers_forEach hl (λ headers value key, record_set headers key value) [].

(** The header list [new Response] ends up with for a string body. *)
Definition with_default_content_type (hl : HeaderList) : HeaderList :=
  if Headers_has hl "content-type" then hl
  else (hl ++ [("Content-Type", "text/plain;charset=UTF-8")])%list.

(** One step of the [forEach] callback of [serializeResponse]:
    [headers[key] = value]. *)
Definition copy_header (o : JsRecord) (kv : string * string) : JsRecord :=
  record_set o kv.1 kv.2.

(** What iteration yields for one lower-cased name. *)
Definition header_block (hl : HeaderList) (n : string) : list (string * string) :=
  if decide (n = "set-cookie")
  then (λ v, (n, v)) <$> Headers_values hl n
  else [(n, String.concat ", " (Headers_values hl n))].

(** The value the serialized headers object ends up with under a name: the
    combined value, or the last [set-cookie] value. *)
Definition entry_value (hl : HeaderList) (n : string) : string :=
  if decide (n = "set-cookie")
  then default "" (last (Headers_values hl n))
  else String.concat ", " (Headers_values hl n).









(** The order in which an object lists its array-index keys: by their
    numeric value. *)
Definition key_index_le (a b : string) : Prop :=
  (default 0 (array_index a) <= default 0 (array_index b))%N.

(** Two header lists that no reader can tell apart: [get] agrees on every
    name and [getSetCookie] agrees. *)
Definition Headers_equiv (h1 h2 : HeaderList) : Prop :=
  (∀ name, Headers_get h1 name = Headers_get h2 name)
  ∧ Headers_getSetCookie h1 = Headers_getSetCookie h2.

(** Observational equivalence of responses: status, status text, headers
    and body text. *)
Definition Response_equiv (r1 r2 : Response) : Prop :=
  res_status r1 = res_status r2
  ∧ res_statusText r1 = res_statusText r2
  ∧ Headers_equiv (res_headers r1) (res_headers r2)
  ∧ Response_text r1 = Response_text r2.

(** The round trip of the Codec on response [r]: serialization and
    deserialization succeed and give back an equivalent response. *)
Definition round_trip (r : Response) (now : Z) : Prop :=
  ∃ e r',
    CacheManager.serializeResponse r now = Ok e
    ∧ CacheManager.deserializeResponse e = Ok r'
    ∧ Response_equiv r' r.

(** The cache key as the specification words it: the namespace, a colon,
    and the result of the key function or, without one, the method, a colon
    and the full URL. *)
Definition spec_cache_key (namespace : string)
    (keyFn : option (Context → string)) (c : Context) : string :=
  namespace ++ ":" ++
  match keyFn with
  | Some keyFn => keyFn c
  | None => req_method c ++ ":" ++ req_url c
  end.

(** ** Sample inputs *)

Definition fresh_world : World MemState := mkWorld empty_mem [].

(** [new Response("Hello World", { status: 200, headers: { "Content-Type":
    "text/plain" } })] *)
Definition text_response : Response :=
  mkResponse (Some "Hello World") false [("Content-Type", "text/plain")] 200 "OK".

(** [new Response(null, { status: 204 })] *)
Definition no_content : Response :=
  mkResponse None false [] 204 "No Content".

(** A handler that sets [X-Custom] and then [Content-Type]. *)
Definition custom_response : Response :=
  mkResponse (Some "ok") false
    [("X-Custom", "value"); ("Content-Type", "text/plain")] 200 "OK".


(** A response that sets two cookies. *)
Definition cookie_response : Response :=
  mkResponse (Some "ok") false
    [("Content-Type", "text/plain"); ("Set-Cookie", "a=1"); ("Set-Cookie", "b=2")]
    200 "OK".

(** A handler's answer that varies unpredictably. *)
Definition vary_response : Response :=
  mkResponse (Some "ok") false
    [("Content-Type", "text/plain"); ("Vary", "*")] 200 "OK".

(** The options of the tests: a cache name and the given backend. *)
Definition named_options (name : string) : CacheOptions MemState :=
  mkOptions (inl name) None None (Some memoryStorage) None.

(** Requests in an environment without an execution context (Node.js) and
    with one that offers [waitUntil]. *)
Definition plain_request (method url : string) : Context :=
  mkContext method url [] None.

Definition hooked_request (method url : string) : Context :=
  mkContext method url [] (Some (mkExecutionCtx true)).



(** A response whose header names include canonical array indices. *)
Definition numbered_response : Response :=
  mkResponse (Some "ok") false
    [("X-Trace", "t"); ("10", "ten"); ("2", "two")] 200 "OK".

(** A backend whose [removeItem] is down. *)
Definition no_remove_storage : Storage MemState :=
  with_removeItem memoryStorage (removeItem brokenStorage).

(** A response whose body has already been read. *)
Definition used_response : Response :=
  mkResponse (Some "Hello World") true [("Content-Type", "text/plain")] 200 "OK".

(** * Properties *)

(** ** Evaluation lemmas for the effect combinators *)

Lemma try_catch_never_throws {σ A} (m : M σ A) (h : JsError → M σ A) w :
  (∀ e w1, ∃ a w2, h e w1 = (Ok a, w2)) →
  ∃ a w', try_catch m h w = (Ok a, w').
Proof.
  intros Hh. unfold try_catch.
  destruct (m w) as [[a|e] w1]; [by eauto | apply Hh].
Qed.

Lemma bind_ok {σ A B} (m : M σ A) (k : A → M σ B) w a w1 :
  m w = (Ok a, w1) → bind m k w = k a w1.
Proof. intros H. unfold bind. by rewrite H. Qed.

Lemma bind_throw {σ A B} (m : M σ A) (k : A → M σ B) w e w1 :
  m w = (Throw e, w1) → bind m k w = (Throw e, w1).
Proof. intros H. unfold bind. by rewrite H. Qed.

Lemma call_eq {σ A} (op : σ → Exc A * σ) (w : World σ) r s :
  op (store w) = (r, s) → call op w = (r, mkWorld s (console w)).
Proof. intros H. unfold call. by rewrite H. Qed.

(** ** CacheManager: errors never escape *)

Lemma delete_never_throws {σ} (cm : CacheManager.t σ) key w :
  ∃ w', CacheManager.delete cm key w = (Ok tt, w').
Proof.
  unfold CacheManager.delete, try_catch, call.
  destruct (removeItem _ _ _) as [[[]|e] s]; simpl; eauto.
Qed.

Lemma get_never_throws {σ} (cm : CacheManager.t σ) key now w :
  ∃ r w', CacheManager.get cm key now w = (Ok r, w').
Proof.
  unfold CacheManager.get. apply try_catch_never_throws.
  intros e w1. unfold bind, console_log, ret. simpl. eauto.
Qed.

Lemma set_never_throws {σ} (cm : CacheManager.t σ) key response now w :
  ∃ w', CacheManager.set cm key response now w = (Ok tt, w').
Proof.
  unfold CacheManager.set.
  destruct (try_catch_never_throws
    (serialized <- lift_exc (CacheManager.serializeResponse response now);;
     call (setItem (CacheManager.storage cm) key serialized);;
     if truthy (CacheManager.ttl cm) then
       call (setMeta (CacheManager.storage cm) key
         {| mtime := cachedAt serialized;
            expires := Some (cachedAt serialized
                             + default 0 (CacheManager.ttl cm) * 1000) |})
     else ret tt)
    (λ error, console_log (ConsoleError "Cache storage error:" error)) w)
    as ([] & w' & H); [|by eauto].
  intros e w1. unfold console_log. eauto.
Qed.

Lemma get_backend_failure {σ} (cm : CacheManager.t σ) key now w e s :
  getItem (CacheManager.storage cm) key (store w) = (Throw e, s) →
  CacheManager.get cm key now w
  = (Ok None,
     mkWorld s (console w ++ [ConsoleError "Cache retrieval error:" e])%list).
Proof.
  intros H. unfold CacheManager.get, try_catch.
  rewrite (bind_throw _ _ w e (mkWorld s (console w))).
  - reflexivity.
  - by apply call_eq.
Qed.

Lemma set_serialization_failure {σ} (cm : CacheManager.t σ) key response now w e :
  CacheManager.serializeResponse response now = Throw e →
  CacheManager.set cm key response now w
  = (Ok tt, mkWorld (store w) (console w ++ [ConsoleError "Cache storage error:" e])%list).
Proof.
  intros He. unfold CacheManager.set, try_catch, bind, lift_exc. by rewrite He.
Qed.

(** What [get] does with an expired entry, on every backend: it calls
    [delete], whose own [try] keeps a failing [removeItem] inside, and
    answers absent. *)
Lemma get_expired_any {σ} (cm : CacheManager.t σ) key now w e s :
  getItem (CacheManager.storage cm) key (store w) = (Ok (Some e), s) →
  isExpired now (cachedAt e) (CacheManager.ttl cm) = true →
  CacheManager.get cm key now w
  = (Ok None,
     match removeItem (CacheManager.storage cm) key s with
     | (Ok _, s') => mkWorld s' (console w)
     | (Throw err, s') =>
         mkWorld s' (console w ++ [ConsoleError "Cache deletion error:" err])%list
     end).
Proof.
  intros Hget Hexp.
  unfold CacheManager.get, CacheManager.delete, try_catch, bind, call,
    console_log, ret.
  rewrite Hget. simpl. rewrite Hexp. simpl.
  by destruct (removeItem _ _ _) as [[[]|err] s'].
Qed.

(** What it takes for [get] to return an entry, on every backend. *)
Lemma get_found_inv {σ} (cm : CacheManager.t σ) key now w r :
  (CacheManager.get cm key now w).1 = Ok (Some r) →
  ∃ e s, getItem (CacheManager.storage cm) key (store w) = (Ok (Some e), s)
         ∧ isExpired now (cachedAt e) (CacheManager.ttl cm) = false
         ∧ CacheManager.deserializeResponse e = Ok r
         ∧ (CacheManager.get cm key now w).2 = mkWorld s (console w).
Proof.
  unfold CacheManager.get, try_catch, bind, call, lift_exc, ret, console_log.
  destruct (getItem _ _ _) as [[[e|]|err] s]; simpl; [|done|done].
  destruct (isExpired _ _ _) eqn:Hexp.
  - destruct (CacheManager.delete _ _ _) as [[[]|?] ?]; simpl; done.
  - destruct (CacheManager.deserializeResponse e) as [r0|] eqn:Hr; [|done].
    simpl. intros [= <-]. by exists e, s.
Qed.

(** C6: neither [get] nor [set] ever throws, whatever the backend and the
    serialization do.  A backend failure during [get] is reported as a miss,
    both when [getItem] throws and when [removeItem] throws on an expired
    entry; [get] returns an entry only when [getItem] returned it, it has
    not expired and it could be rebuilt, and then nothing was logged.  A
    failing serialization leaves [set] returning normally with the backend
    untouched, and a failing [setItem] or [setMeta] leaves it returning
    normally with one line logged. *)
Theorem C6_get_set_fail_open {σ} (cm : CacheManager.t σ) (key : string)
    (response : Response) (now : Z) (w : World σ) :
  (∃ r w', CacheManager.get cm key now w = (Ok r, w'))
  ∧ (is_ok (getItem (CacheManager.storage cm) key (store w)).1 = false →
     (CacheManager.get cm key now w).1 = Ok None)
  ∧ (∀ e s, getItem (CacheManager.storage cm) key (store w) = (Ok (Some e), s) →
       isExpired now (cachedAt e) (CacheManager.ttl cm) = true →
       (CacheManager.get cm key now w).1 = Ok None
       ∧ ∀ err s', removeItem (CacheManager.storage cm) key s = (Throw err, s') →
           CacheManager.get cm key now w
           = (Ok None,
              mkWorld s' (console w
                          ++ [ConsoleError "Cache deletion error:" err])%list))
  ∧ (∀ r, (CacheManager.get cm key now w).1 = Ok (Some r) →
       ∃ e s, getItem (CacheManager.storage cm) key (store w) = (Ok (Some e), s)
              ∧ isExpired now (cachedAt e) (CacheManager.ttl cm) = false
              ∧ CacheManager.deserializeResponse e = Ok r
              ∧ (CacheManager.get cm key now w).2 = mkWorld s (console w))
  ∧ (∃ w', CacheManager.set cm key response now w = (Ok tt, w'))
  ∧ (is_ok (CacheManager.serializeResponse response now) = false →
     ∃ log, CacheManager.set cm key response now w
            = (Ok tt, mkWorld (store w) (console w ++ [log])%list))
  ∧ (∀ e err s, CacheManager.serializeResponse response now = Ok e →
       setItem (CacheManager.storage cm) key e (store w) = (Throw err, s) →
       CacheManager.set cm key response now w
       = (Ok tt,
          mkWorld s (console w ++ [ConsoleError "Cache storage error:" err])%list))
  ∧ (∀ e s err s', CacheManager.serializeResponse response now = Ok e →
       setItem (CacheManager.storage cm) key e (store w) = (Ok tt, s) →
       truthy (CacheManager.ttl cm) = true →
       setMeta (CacheManager.storage cm) key
         {| mtime := cachedAt e;
            expires := Some (cachedAt e + default 0 (CacheManager.ttl cm) * 1000) |} s
       = (Throw err, s') →
       CacheManager.set cm key response now w
       = (Ok tt,
          mkWorld s' (console w ++ [ConsoleError "Cache storage error:" err])%list)).
Proof.
  split; [apply get_never_throws|].
  split; [|split; [|split; [|split; [apply set_never_throws|split; [|split]]]]].
  - destruct (getItem _ _ _) as [[r|e] s] eqn:H; simpl; [done|].
    intros _. by rewrite (get_backend_failure cm key now w e s H).
  - intros e s Hget Hexp. rewrite (get_expired_any cm key now w e s Hget Hexp).
    split; [done|]. by intros err s' ->.
  - apply get_found_inv.
  - destruct (CacheManager.serializeResponse response now) as [|e] eqn:He; [done|].
    intros _. eexists. by apply set_serialization_failure.
  - intros e err s He Hset.
    unfold CacheManager.set, try_catch, bind, lift_exc, call, console_log.
    rewrite He. simpl. by rewrite Hset.
  - intros e s err s' He Hset Httl Hmeta.
    unfold CacheManager.set, try_catch, bind, lift_exc, call, console_log.
    rewrite He. simpl. rewrite Hset. simpl. rewrite Httl. simpl in *.
    by rewrite Hmeta.
Qed.

Lemma C6_witness :
  let cm := CacheManager.new (@brokenStorage MemState) (Some 60) in
  let cm' := CacheManager.new no_remove_storage (Some 1) in
  let e := mkCached "Hello World" [("content-type", "text/plain")] 200 "OK" 1000 in
  let w := (CacheManager.set cm' "k" text_response 1000 fresh_world).2 in
  (is_ok (getItem (CacheManager.storage cm) "k" (store fresh_world)).1 = false
   ∧ (CacheManager.get cm "k" 0 fresh_world).1 = Ok None)
  ∧ (getItem (CacheManager.storage cm') "k" (store w) = (Ok (Some e), store w)
     ∧ isExpired 5000 (cachedAt e) (CacheManager.ttl cm') = true
     ∧ removeItem (CacheManager.storage cm') "k" (store w)
       = (Throw (StorageError "connection refused"), store w)
     ∧ (CacheManager.get cm' "k" 5000 w).1 = Ok None)
  ∧ (is_ok (CacheManager.serializeResponse used_response 0) = false
     ∧ (CacheManager.set cm "k" used_response 0 fresh_world).1 = Ok tt).
Proof.
  intros cm cm' e w.
  pose proof (C6_get_set_fail_open cm "k" used_response 0 fresh_world)
    as (_ & Hget & _ & _ & _ & Hset & _ & _).
  pose proof (C6_get_set_fail_open cm' "k" used_response 5000 w)
    as (_ & _ & Hexp & _).
  split; [split; [reflexivity|exact (Hget eq_refl)]|].
  split.
  - split; [reflexivity|]. split; [reflexivity|]. split; [reflexivity|].
    exact (proj1 (Hexp e (store w) eq_refl eq_refl)).
  - split; [reflexivity|].
    destruct (Hset eq_refl) as [log Hlog]. by rewrite Hlog.
Defined.

(** ** CacheManager: a TTL of zero *)

Lemma isExpired_zero now cachedAt : isExpired now cachedAt (Some 0) = false.
Proof. reflexivity. Qed.

Lemma isExpired_none now cachedAt : isExpired now cachedAt None = false.
Proof. reflexivity. Qed.

(** C10: with [ttl = 0] nothing ever expires and no metadata is written;
    [get], [has] and [set] behave as without a TTL, [get] never calls
    [removeItem] and [set] never calls [setMeta]. *)
Theorem C10_zero_ttl_is_no_ttl {σ} (st : Storage σ) (key : string)
    (response : Response) (now cachedAt : Z) (w : World σ) :
  isExpired now cachedAt (Some 0) = false
  ∧ CacheManager.get (CacheManager.new st (Some 0)) key now w
    = CacheManager.get (CacheManager.new st None) key now w
  ∧ CacheManager.has (CacheManager.new st (Some 0)) key now w
    = CacheManager.has (CacheManager.new st None) key now w
  ∧ CacheManager.set (CacheManager.new st (Some 0)) key response now w
    = CacheManager.set (CacheManager.new st None) key response now w
  ∧ (∀ f, CacheManager.get (CacheManager.new (with_removeItem st f) (Some 0)) key now w
          = CacheManager.get (CacheManager.new st (Some 0)) key now w)
  ∧ (∀ f, CacheManager.set (CacheManager.new (with_setMeta st f) (Some 0)) key response now w
          = CacheManager.set (CacheManager.new st (Some 0)) key response now w).
Proof.
  repeat split; reflexivity.
Qed.

(** ** CacheManager: what [get] and [has] return *)

Section Lookup.
Context {σ : Type}.
Variable cm : CacheManager.t σ.
Variables (key : string) (now : Z) (w : World σ).

Lemma get_missing s :
  getItem (CacheManager.storage cm) key (store w) = (Ok None, s) →
  CacheManager.get cm key now w = (Ok None, mkWorld s (console w)).
Proof.
  intros H. unfold CacheManager.get, try_catch.
  by rewrite (bind_ok _ _ w None (mkWorld s (console w)) (call_eq _ _ _ _ H)).
Qed.

Lemma get_expired e s :
  getItem (CacheManager.storage cm) key (store w) = (Ok (Some e), s) →
  isExpired now (cachedAt e) (CacheManager.ttl cm) = true →
  CacheManager.get cm key now w
  = (Ok None, (CacheManager.delete cm key (mkWorld s (console w))).2).
Proof.
  intros H Hexp. unfold CacheManager.get, try_catch.
  rewrite (bind_ok _ _ w (Some e) (mkWorld s (console w)) (call_eq _ _ _ _ H)).
  rewrite Hexp.
  destruct (delete_never_throws cm key (mkWorld s (console w))) as [w' Hd].
  by rewrite (bind_ok _ _ _ tt w' Hd), Hd.
Qed.

Lemma get_fresh e s r :
  getItem (CacheManager.storage cm) key (store w) = (Ok (Some e), s) →
  isExpired now (cachedAt e) (CacheManager.ttl cm) = false →
  CacheManager.deserializeResponse e = Ok r →
  CacheManager.get cm key now w = (Ok (Some r), mkWorld s (console w)).
Proof.
  intros H Hexp Hr. unfold CacheManager.get, try_catch.
  rewrite (bind_ok _ _ w (Some e) (mkWorld s (console w)) (call_eq _ _ _ _ H)).
  rewrite Hexp. unfold bind, lift_exc. by rewrite Hr.
Qed.

Lemma get_unbuildable e s err :
  getItem (CacheManager.storage cm) key (store w) = (Ok (Some e), s) →
  isExpired now (cachedAt e) (CacheManager.ttl cm) = false →
  CacheManager.deserializeResponse e = Throw err →
  CacheManager.get cm key now w
  = (Ok None,
     mkWorld s (console w ++ [ConsoleError "Cache retrieval error:" err])%list).
Proof.
  intros H Hexp Hr. unfold CacheManager.get, try_catch.
  rewrite (bind_ok _ _ w (Some e) (mkWorld s (console w)) (call_eq _ _ _ _ H)).
  rewrite Hexp. unfold bind, lift_exc. by rewrite Hr.
Qed.

End Lookup.

(** An entry with a null body status (204, 205, 304) can never be rebuilt:
    [new Response] refuses a body, even the empty string, for it. *)
Lemma deserialize_null_body_status e :
  null_body_status (status e) = true →
  is_ok (CacheManager.deserializeResponse e) = false.
Proof.
  intros Hn. unfold CacheManager.deserializeResponse, Response_new. simpl.
  rewrite Hn.
  destruct ((status e <? 200) || (599 <? status e)); [done|].
  by destruct (negb (is_reason_phrase (statusText e))).
Qed.

(** ** Codec: serialization succeeds on an unread body, and what was
    serialized from a response with a body can be rebuilt *)

Lemma serialize_unread r now :
  res_bodyUsed r = false →
  CacheManager.serializeResponse r now
  = Ok {| body := default "" (res_body r);
          headers := serialized_headers (res_headers r);
          status := res_status r;
          statusText := res_statusText r;
          cachedAt := now |}.
Proof.
  intros H. unfold CacheManager.serializeResponse, Response_text. by rewrite H.
Qed.


Lemma serialize_cachedAt r now e :
  CacheManager.serializeResponse r now = Ok e → cachedAt e = now.
Proof.
  unfold CacheManager.serializeResponse.
  destruct (Response_text r); [|done]. by intros [= <-].
Qed.


(** The same for a response without a body: its body is stored as the
    empty string and comes back as the empty string. *)
Lemma rebuild_any r now e :
  Response_valid r → null_body_status (res_status r) = false →
  CacheManager.serializeResponse r now = Ok e →
  CacheManager.deserializeResponse e
  = Ok {| res_body := Some (default "" (res_body r));
          res_bodyUsed := false;
          res_headers :=
            with_default_content_type (sort_and_combine (Headers_new (headers e)));
          res_status := res_status r;
          res_statusText := res_statusText r |}.
Proof.
  intros [Hst Htxt Hnull] Hn.
  unfold CacheManager.serializeResponse, Response_text.
  destruct (res_bodyUsed r); [done|]. intros [= <-].
  unfold CacheManager.deserializeResponse, Response_new. simpl.
  rewrite Htxt, Hn. simpl.
  destruct (res_status r <? 200) eqn:H1; [lia|].
  destruct (599 <? res_status r) eqn:H2; [lia|]. reflexivity.
Qed.

(** ** CacheManager: [has] against [get] *)




(** ** CacheManager: expiry *)

Lemma isExpired_positive now cachedAt S :
  0 < S → isExpired now cachedAt (Some S) = (now >? cachedAt + S * 1000).
Proof.
  intros HS. unfold isExpired, truthy. simpl.
  destruct (S =? 0) eqn:H0; [lia|]. reflexivity.
Qed.

(** On any backend that holds entry [e] under the key: with a positive TTL,
    [get] rebuilds [e] up to and including [cachedAt + S*1000] and reports
    absent afterwards. *)
Lemma get_ttl_boundary {σ} (st : Storage σ) (S : Z) key now (w : World σ) e s r :
  0 < S →
  getItem st key (store w) = (Ok (Some e), s) →
  CacheManager.deserializeResponse e = Ok r →
  (now ≤ cachedAt e + S * 1000 →
     (CacheManager.get (CacheManager.new st (Some S)) key now w).1 = Ok (Some r))
  ∧ (cachedAt e + S * 1000 < now →
     (CacheManager.get (CacheManager.new st (Some S)) key now w).1 = Ok None).
Proof.
  intros HS Hget Hr. split; intros Hnow.
  - rewrite (get_fresh _ key now w e s r); [done|exact Hget| |exact Hr].
    simpl. rewrite isExpired_positive by done. lia.
  - rewrite (get_expired _ key now w e s); [done|exact Hget|].
    simpl. rewrite isExpired_positive by done. lia.
Qed.

Lemma set_memory (ttl : option Z) key r now (w : World MemState) e :
  CacheManager.serializeResponse r now = Ok e →
  CacheManager.set (CacheManager.new memoryStorage ttl) key r now w
  = (Ok tt,
     mkWorld
       (mkMem (<[key := e]> (mem_items (store w)))
          (if truthy ttl
           then <[key := {| mtime := cachedAt e;
                            expires := Some (cachedAt e + default 0 ttl * 1000) |}]>
                  (mem_meta (store w))
           else mem_meta (store w)))
       (console w)).
Proof.
  intros He. unfold CacheManager.set, try_catch, bind, lift_exc, call. simpl.
  rewrite He. simpl. destruct (truthy ttl); simpl; [done|].
  by destruct w as [[] ?].
Qed.

(** The TTL boundary for what [set] writes, for every response that can be
    rebuilt (any status other than a null body status, with or without a
    body): under a TTL of [S > 0] seconds the entry written at time [T] is
    returned by every [get] at a time up to and including [T + S*1000] and
    is absent for every [get] strictly after. *)
Lemma set_get_ttl_boundary (S T now : Z) (key : string) (r : Response)
    (w : World MemState) :
  0 < S → Response_valid r → res_bodyUsed r = false →
  null_body_status (res_status r) = false →
  let cm := CacheManager.new memoryStorage (Some S) in
  let w1 := (CacheManager.set cm key r T w).2 in
  ∃ e r',
    CacheManager.serializeResponse r T = Ok e
    ∧ CacheManager.deserializeResponse e = Ok r'
    ∧ (now ≤ T + S * 1000 → (CacheManager.get cm key now w1).1 = Ok (Some r'))
    ∧ (T + S * 1000 < now → (CacheManager.get cm key now w1).1 = Ok None).
Proof.
  intros HS Hvalid Hunread Hn cm w1.
  pose proof (serialize_unread r T Hunread) as He.
  set (e := {| body := default "" (res_body r);
               headers := serialized_headers (res_headers r);
               status := res_status r;
               statusText := res_statusText r;
               cachedAt := T |}) in *.
  pose proof (rebuild_any r T e Hvalid Hn He) as Hr.
  eexists e, _. split; [exact He|]. split; [exact Hr|].
  assert (Hw1 : getItem memoryStorage key (store w1) = (Ok (Some e), store w1)).
  { unfold w1, cm. rewrite (set_memory (Some S) key r T w e He). simpl.
    by rewrite lookup_insert_eq. }
  exact (get_ttl_boundary memoryStorage S key now w1 e (store w1) _ HS Hw1 Hr).
Qed.

(** C3 (what the code does): the entry written for [new Response(null,
    { status: 204 })] is absent well within its TTL, and absent without a
    TTL as well.  [set] stores the missing body as the empty string, [new
    Response] refuses a body, even an empty one, for status 204, and [get]
    turns the TypeError into a miss; [has] still answers true. *)
Theorem C3_empty_response_is_absent :
  let cm := CacheManager.new memoryStorage (Some 60) in
  let w1 := (CacheManager.set cm "empty-key" no_content 1000 fresh_world).2 in
  let cm0 := CacheManager.new memoryStorage None in
  let w0 := (CacheManager.set cm0 "empty-key" no_content 1000 fresh_world).2 in
  mem_items (store w1) !! "empty-key" = Some (mkCached "" [] 204 "No Content" 1000)
  ∧ 1500 ≤ 1000 + 60 * 1000
  ∧ (CacheManager.has cm "empty-key" 1500 w1).1 = Ok true
  ∧ (CacheManager.get cm "empty-key" 1500 w1).1 = Ok None
  ∧ (CacheManager.get cm0 "empty-key" 1500 w0).1 = Ok None
  ∧ CacheManager.deserializeResponse (mkCached "" [] 204 "No Content" 1000)
    = Throw (TypeError "Response with null body status cannot have body").
Proof. vm_compute. repeat split. intros H. discriminate H. Qed.

(** ** Strings: lowercasing and the byte order *)

Lemma lower_ascii_idemp a : lower_ascii (lower_ascii a) = lower_ascii a.
Proof. destruct a as [[] [] [] [] [] [] [] []]; reflexivity. Qed.

Lemma lower_idemp s : lower (lower s) = lower s.
Proof. induction s as [|a s IH]; simpl; [done|]. by rewrite lower_ascii_idemp, IH. Qed.

Lemma ascii_compare_trans a b c o :
  Ascii.compare a b = o → Ascii.compare b c = o → Ascii.compare a c = o.
Proof.
  unfold Ascii.compare. destruct o; intros H1 H2.
  - rewrite N.compare_eq_iff in *. congruence.
  - rewrite N.compare_lt_iff in *. lia.
  - rewrite N.compare_gt_iff in *. lia.
Qed.

Lemma str_le_unfold a b : str_le a b ↔ String.compare a b ≠ Gt.
Proof.
  unfold str_le, String.leb. destruct (String.compare a b); split; congruence.
Qed.

Lemma string_compare_trans_le a b c :
  String.compare a b ≠ Gt → String.compare b c ≠ Gt → String.compare a c ≠ Gt.
Proof.
  revert b c. induction a as [|x a IH]; intros [|y b] [|z c]; simpl; try congruence.
  destruct (Ascii.compare x y) eqn:Hxy; [| |congruence].
  - apply Ascii.compare_eq_iff in Hxy as ->.
    destruct (Ascii.compare y z); [apply IH|congruence|congruence].
  - intros _. destruct (Ascii.compare y z) eqn:Hyz; [| |congruence].
    + apply Ascii.compare_eq_iff in Hyz as <-. rewrite Hxy. congruence.
    + rewrite (ascii_compare_trans x y z Lt Hxy Hyz). congruence.
Qed.

Lemma str_le_trans : Transitive str_le.
Proof.
  intros a b c. rewrite !str_le_unfold. apply string_compare_trans_le.
Qed.

Lemma str_le_antisymm : AntiSymm (=) str_le.
Proof.
  intros a b H1 H2. unfold str_le in *.
  apply String.compare_eq_iff.
  unfold String.leb in *.
  rewrite String.compare_antisym in H2.
  destruct (String.compare a b); simpl in *; congruence.
Qed.

#[global] Existing Instances str_le_trans str_le_antisymm.

(** ** Header lists: names, values and iteration *)


Lemma elem_of_sorted_names hl k :
  k ∈ sorted_lowercase_names hl ↔ ∃ h, h ∈ hl ∧ k = lower h.1.
Proof.
  unfold sorted_lowercase_names.
  rewrite merge_sort_Permutation, elem_of_remove_dups, list_elem_of_fmap.
  split.
  - intros (n & -> & Hn). apply list_elem_of_fmap in Hn as (h & -> & Hh). eauto.
  - intros (h & Hh & ->). exists h.1. split; [done|].
    apply list_elem_of_fmap. eauto.
Qed.

Lemma NoDup_sorted_names hl : NoDup (sorted_lowercase_names hl).
Proof.
  unfold sorted_lowercase_names. rewrite merge_sort_Permutation.
  apply NoDup_remove_dups.
Qed.

Lemma Sorted_sorted_names hl : StronglySorted str_le (sorted_lowercase_names hl).
Proof. apply StronglySorted_merge_sort; apply _. Qed.

Lemma sorted_names_lowercase hl k :
  k ∈ sorted_lowercase_names hl → lower k = k.
Proof.
  rewrite elem_of_sorted_names. intros (h & _ & ->). apply lower_idemp.
Qed.

Lemma Headers_values_nonempty hl n :
  Headers_values hl n ≠ [] ↔ lower n ∈ sorted_lowercase_names hl.
Proof.
  rewrite elem_of_sorted_names. unfold Headers_values. split.
  - intros Hne.
    destruct (filter (name_match n) hl) as [|h l] eqn:Hf; [done|].
    assert (Hh : h ∈ filter (name_match n) hl) by (rewrite Hf; left).
    apply list_elem_of_filter in Hh as [Hm Hh]. exists h. split; [done|].
    by rewrite Hm.
  - intros (h & Hh & Hm) Hnil.
    apply fmap_nil_inv in Hnil.
    apply (filter_nil_not_elem_of (name_match n) hl h) in Hnil; [done|].
    unfold name_match. by rewrite Hm.
Qed.

Lemma sort_and_combine_blocks hl :
  sort_and_combine hl = sorted_lowercase_names hl ≫= header_block hl.
Proof. reflexivity. Qed.

Lemma serialized_headers_fold hl :
  serialized_headers hl = foldl copy_header [] (sort_and_combine hl).
Proof. reflexivity. Qed.

(** ** Plain objects: assignment *)

Lemma record_replace_snoc (acc : JsRecord) n v v' :
  n ∉ acc.*1 →
  record_replace (acc ++ [(n, v)])%list n v' = (acc ++ [(n, v')])%list.
Proof.
  induction acc as [|[k x] acc IH]; simpl; intros Hn.
  - by rewrite decide_True.
  - apply not_elem_of_cons in Hn as [Hk Hn].
    rewrite decide_False by done. by rewrite IH.
Qed.

Lemma record_set_fresh (acc : JsRecord) n v :
  n ≠ "__proto__" → n ∉ acc.*1 →
  record_set acc n v = (acc ++ [(n, v)])%list.
Proof.
  intros Hp Hn. unfold record_set.
  rewrite decide_False by done. by rewrite decide_False.
Qed.

Lemma record_set_again (acc : JsRecord) n v v' :
  n ≠ "__proto__" → n ∉ acc.*1 →
  record_set (acc ++ [(n, v)])%list n v' = (acc ++ [(n, v')])%list.
Proof.
  intros Hp Hn. unfold record_set. rewrite decide_False by done.
  rewrite decide_True; [by apply record_replace_snoc|].
  rewrite fmap_app. apply elem_of_app. right. simpl. left.
Qed.

Lemma copy_same_key (acc : JsRecord) n v vs :
  n ≠ "__proto__" → n ∉ acc.*1 →
  foldl copy_header (acc ++ [(n, v)])%list ((λ v, (n, v)) <$> vs)
  = (acc ++ [(n, default v (last vs))])%list.
Proof.
  intros Hp Hn. revert v. induction vs as [|v' vs IH]; intros v; simpl; [done|].
  unfold copy_header at 2. simpl. rewrite record_set_again by done.
  rewrite IH. destruct vs as [|v'' vs]; [done|].
  rewrite last_cons_cons.
  destruct (last (v'' :: vs)) eqn:E; [done|]. by apply last_None in E.
Qed.

Lemma copy_proto acc (l : list (string * string)) :
  (∀ kv, kv ∈ l → kv.1 = "__proto__") → foldl copy_header acc l = acc.
Proof.
  induction l as [|kv l IH]; simpl; intros Hl; [done|].
  unfold copy_header at 2, record_set.
  rewrite decide_True by (apply Hl; left).
  apply IH. intros kv' ?. apply Hl. by right.
Qed.

Lemma copy_block hl (acc : JsRecord) n :
  n ∉ acc.*1 → Headers_values hl n ≠ [] →
  foldl copy_header acc (header_block hl n)
  = if decide (n = "__proto__") then acc
    else (acc ++ [(n, entry_value hl n)])%list.
Proof.
  intros Hn Hne. destruct (decide (n = "__proto__")) as [->|Hp].
  - apply copy_proto. intros kv. unfold header_block. simpl.
    intros ->%list_elem_of_singleton. done.
  - unfold header_block, entry_value. destruct (decide (n = "set-cookie")) as [Hc|Hc].
    + destruct (Headers_values hl n) as [|v vs]; [done|]. simpl.
      unfold copy_header at 2. simpl. rewrite record_set_fresh by done.
      rewrite copy_same_key by done. f_equal. f_equal. f_equal.
      destruct vs as [|v' vs]; [done|]. rewrite last_cons_cons.
      destruct (last (v' :: vs)) eqn:E; [done|]. by apply last_None in E.
    + simpl. unfold copy_header. simpl. by rewrite record_set_fresh.
Qed.

Lemma copy_blocks hl ns (acc : JsRecord) :
  NoDup ns →
  (∀ n, n ∈ ns → (n ∉ acc.*1) ∧ Headers_values hl n ≠ []) →
  foldl copy_header acc (ns ≫= header_block hl)
  = (acc ++ ((λ n, (n, entry_value hl n)) <$> filter (λ n, n ≠ "__proto__") ns))%list.
Proof.
  intros Hnd. revert acc. induction Hnd as [|n ns Hn Hnd IH]; intros acc Hacc.
  - simpl. by rewrite app_nil_r.
  - rewrite bind_cons, foldl_app.
    destruct (Hacc n ltac:(left)) as [Hfresh Hne].
    rewrite copy_block by done.
    rewrite filter_cons. destruct (decide (n = "__proto__")) as [->|Hp].
    + rewrite decide_False by (intros H; by apply H).
      apply IH. intros m Hm. apply Hacc. by right.
    + rewrite decide_True by done. rewrite IH.
      * rewrite fmap_cons. by rewrite <- app_assoc.
      * intros m Hm. destruct (Hacc m ltac:(by right)) as [Hm1 Hm2].
        split; [|done]. rewrite fmap_app. simpl.
        rewrite elem_of_app, list_elem_of_singleton.
        intros [?| ->]; [done|]. done.
Qed.

(** The headers object written into the entry: one property per lower-cased
    name, in ascending order of the names, [__proto__] left out. *)
Lemma serialized_headers_eq hl :
  serialized_headers hl
  = (λ n, (n, entry_value hl n))
    <$> filter (λ n, n ≠ "__proto__") (sorted_lowercase_names hl).
Proof.
  rewrite serialized_headers_fold, sort_and_combine_blocks.
  rewrite copy_blocks; [done|apply NoDup_sorted_names|].
  intros n Hn. split; [simpl; apply not_elem_of_nil|].
  apply Headers_values_nonempty. by rewrite (sorted_names_lowercase hl n Hn).
Qed.

Lemma StronglySorted_filter {A} (R : relation A) (P : A → Prop)
    `{∀ x, Decision (P x)} (l : list A) :
  StronglySorted R l → StronglySorted R (filter P l).
Proof.
  induction 1 as [|x l Hl IH Hx]; [constructor|].
  rewrite filter_cons. destruct (decide (P x)); [|done].
  constructor; [done|].
  apply Forall_forall. intros y Hy%list_elem_of_filter.
  rewrite Forall_forall in Hx. apply Hx, Hy.
Qed.

Lemma record_get_fmap (g : string → string) ns k :
  k ∈ ns → record_get ((λ n, (n, g n)) <$> ns) k = Some (g k).
Proof.
  induction ns as [|n ns IH]; [by intros ?%elem_of_nil|].
  intros Hk. simpl. destruct (decide (n = k)) as [->|Hne]; [done|].
  apply IH. by apply elem_of_cons in Hk as [->|].
Qed.

Lemma serialized_keys hl :
  (serialized_headers hl).*1
  = filter (λ n, n ≠ "__proto__") (sorted_lowercase_names hl).
Proof.
  rewrite serialized_headers_eq, <- list_fmap_compose.
  apply list_fmap_id.
Qed.

Lemma own_entries_no_index (o : JsRecord) :
  (∀ p, p ∈ o → ¬ is_array_index p) → own_entries o = o.
Proof.
  intros Ho. unfold own_entries.
  assert (filter is_array_index o = []) as ->.
  { destruct (filter is_array_index o) as [|p l] eqn:Hf; [done|].
    assert (Hp : p ∈ filter is_array_index o) by (rewrite Hf; left).
    apply list_elem_of_filter in Hp as [Hp1 Hp2]. by destruct (Ho p Hp2). }
  change (merge_sort index_le []) with (@nil (string * string)).
  rewrite app_nil_l. induction o as [|p o IH]; [done|].
  rewrite filter_cons_True by (apply Ho; left).
  f_equal. apply IH. intros q Hq. apply Ho. by right.
Qed.

Lemma own_entries_Permutation (o : JsRecord) : own_entries o ≡ₚ o.
Proof.
  unfold own_entries. rewrite merge_sort_Permutation.
  apply filter_app_complement.
Qed.

Lemma own_keys_Permutation (o : JsRecord) : own_keys o ≡ₚ o.*1.
Proof. unfold own_keys. by rewrite own_entries_Permutation. Qed.

Lemma index_le_trans : Transitive index_le.
Proof. intros p q r. unfold index_le. lia. Qed.

(** The enumeration order of a record whose properties were created in
    ascending order of their names: the array-index names first, by numeric
    value, then the other names, still in ascending order. *)
Lemma own_keys_order (g : string → string) (ns : list string) :
  StronglySorted str_le ns →
  ∃ indices names,
    own_keys ((λ n, (n, g n)) <$> ns) = (indices ++ names)%list
    ∧ Forall (λ k, is_Some (array_index k)) indices
    ∧ StronglySorted key_index_le indices
    ∧ Forall (λ k, array_index k = None) names
    ∧ StronglySorted str_le names.
Proof.
  intros Hsorted. set (o := (λ n, (n, g n)) <$> ns).
  exists (merge_sort index_le (filter is_array_index o)).*1,
         (filter (λ p, ¬ is_array_index p) o).*1.
  split; [unfold own_keys, own_entries; by rewrite fmap_app|].
  split; [|split; [|split]].
  - apply Forall_fmap, Forall_forall. intros p Hp.
    rewrite merge_sort_Permutation in Hp.
    by apply list_elem_of_filter in Hp as [Hp _].
  - pose proof index_le_trans.
    apply (StronglySorted_fmap fst index_le); [done|].
    by apply (StronglySorted_merge_sort index_le).
  - apply Forall_fmap, Forall_forall. intros p [Hp _]%list_elem_of_filter.
    simpl. by apply eq_None_not_Some.
  - apply (StronglySorted_fmap fst (λ p q, str_le p.1 q.1)); [done|].
    apply StronglySorted_filter.
    by apply (StronglySorted_fmap (λ n, (n, g n)) str_le).
Qed.

(** C9 (amended): the headers object of the entry has one property for
    every response header, under the lower-cased name (a header named
    [__proto__] aside).  The properties are distinct and are enumerated with
    the array-index names first, by numeric value, and then the other names
    in ascending byte order; a name other than [set-cookie] carries the
    combined value, [set-cookie] its last value. *)
Theorem C9_serialized_header_names (r : Response) (now : Z) (e : CachedResponse) :
  CacheManager.serializeResponse r now = Ok e →
  (∀ h, h ∈ res_headers r → lower h.1 ≠ "__proto__" →
     lower h.1 ∈ own_keys (headers e))
  ∧ (∀ k, k ∈ own_keys (headers e) →
       lower k = k ∧ ∃ h, h ∈ res_headers r ∧ k = lower h.1)
  ∧ NoDup (own_keys (headers e))
  ∧ (∃ indices names,
       own_keys (headers e) = (indices ++ names)%list
       ∧ Forall (λ k, is_Some (array_index k)) indices
       ∧ StronglySorted key_index_le indices
       ∧ Forall (λ k, array_index k = None) names
       ∧ StronglySorted str_le names)
  ∧ (∀ k, k ∈ own_keys (headers e) → k ≠ "set-cookie" →
       record_get (headers e) k = Headers_get (res_headers r) k)
  ∧ ("set-cookie" ∈ own_keys (headers e) →
       record_get (headers e) "set-cookie"
       = last (Headers_getSetCookie (res_headers r))).
Proof.
  unfold CacheManager.serializeResponse.
  destruct (Response_text r) as [b|]; [|done]. intros [= <-]. simpl.
  fold (serialized_headers (res_headers r)).
  set (hl := res_headers r).
  assert (Hin : ∀ k, k ∈ own_keys (serialized_headers hl)
                     ↔ k ∈ filter (λ n, n ≠ "__proto__") (sorted_lowercase_names hl)).
  { intros k. by rewrite own_keys_Permutation, serialized_keys. }
  split; [|split; [|split; [|split; [|split]]]].
  - intros h Hh Hp. apply Hin, list_elem_of_filter. split; [done|].
    apply elem_of_sorted_names. eauto.
  - intros k [Hp Hk]%Hin%list_elem_of_filter. split.
    + by apply (sorted_names_lowercase hl).
    + by apply elem_of_sorted_names.
  - rewrite own_keys_Permutation, serialized_keys.
    apply NoDup_filter, NoDup_sorted_names.
  - rewrite serialized_headers_eq. apply own_keys_order.
    apply StronglySorted_filter, Sorted_sorted_names.
  - intros k Hk%Hin Hc. rewrite serialized_headers_eq.
    rewrite (record_get_fmap (entry_value hl)) by done.
    apply list_elem_of_filter in Hk as [_ Hk].
    unfold entry_value, Headers_get. rewrite decide_False by done.
    pose proof (sorted_names_lowercase hl k Hk) as Hlow.
    assert (Hne : Headers_values hl k ≠ []).
    { apply Headers_values_nonempty. by rewrite Hlow. }
    by destruct (Headers_values hl k).
  - intros Hk%Hin. rewrite serialized_headers_eq.
    rewrite (record_get_fmap (entry_value hl)) by done.
    apply list_elem_of_filter in Hk as [_ Hk].
    unfold entry_value, Headers_getSetCookie. rewrite decide_True by done.
    assert (Hne : Headers_values hl "set-cookie" ≠ []).
    { by apply Headers_values_nonempty. }
    destruct (last (Headers_values hl "set-cookie")) eqn:E; [done|].
    by apply last_None in E.
Qed.

Lemma C9_witness :
  let e := mkCached "ok" [("10", "ten"); ("2", "two"); ("x-trace", "t")]
             200 "OK" 1000 in
  CacheManager.serializeResponse numbered_response 1000 = Ok e
  ∧ (res_headers numbered_response).*1 = ["X-Trace"; "10"; "2"]
  ∧ own_keys (headers e) = ["2"; "10"; "x-trace"]
  ∧ NoDup (own_keys (headers e))
  ∧ record_get (headers e) "x-trace" = Some "t".
Proof.
  intros e.
  assert (He : CacheManager.serializeResponse numbered_response 1000 = Ok e)
    by reflexivity.
  pose proof (C9_serialized_header_names numbered_response 1000 e He)
    as (_ & _ & Hnd & _ & _ & _).
  split; [exact He|]. split; [reflexivity|]. split; [reflexivity|].
  split; [exact Hnd|reflexivity].
Defined.

(** The claim C9 as stated fails: the names are not kept in their original
    case and not in insertion order. *)
Lemma C9_counterexample :
  ∃ e, CacheManager.serializeResponse custom_response 1000 = Ok e
       ∧ (res_headers custom_response).*1 = ["X-Custom"; "Content-Type"]
       ∧ own_keys (headers e) = ["content-type"; "x-custom"].
Proof. eexists. split; [reflexivity|]. split; reflexivity. Qed.

(** ** Codec: the headers after a round trip *)















(** Equivalent header lists iterate alike: [Headers_equiv] leaves nothing
    for [forEach] or [entries] to tell apart. *)
Lemma Headers_get_None hl n : Headers_get hl n = None ↔ Headers_values hl n = [].
Proof. unfold Headers_get. by destruct (Headers_values hl n). Qed.

Lemma Headers_equiv_names h1 h2 :
  Headers_equiv h1 h2 → sorted_lowercase_names h1 = sorted_lowercase_names h2.
Proof.
  intros [Hget _].
  apply (StronglySorted_unique str_le); try apply Sorted_sorted_names.
  apply NoDup_Permutation; try apply NoDup_sorted_names.
  assert (Hin : ∀ h k, k ∈ sorted_lowercase_names h ↔ lower k = k ∧ Headers_get h k ≠ None).
  { intros h k. rewrite Headers_get_None, Headers_values_nonempty. split.
    - intros Hk. pose proof (sorted_names_lowercase h k Hk) as Hl. by rewrite Hl.
    - by intros [-> ?]. }
  intros k. rewrite !Hin, Hget. done.
Qed.

Lemma Headers_equiv_iteration h1 h2 :
  Headers_equiv h1 h2 → sort_and_combine h1 = sort_and_combine h2.
Proof.
  intros Heq. rewrite !sort_and_combine_blocks, (Headers_equiv_names h1 h2 Heq).
  destruct Heq as [Hget Hcookie].
  apply list_bind_ext; [|done]. intros n. unfold header_block.
  destruct (decide (n = "set-cookie")) as [->|Hn].
  - unfold Headers_getSetCookie in Hcookie. by rewrite Hcookie.
  - specialize (Hget n). unfold Headers_get in Hget.
    destruct (Headers_values h1 n), (Headers_values h2 n); congruence.
Qed.




(** Of two [Set-Cookie] headers only the last one survives the round
    trip. *)
Lemma round_trip_loses_cookies : ¬ round_trip cookie_response 1000.
Proof.
  intros (e & r' & He & Hr & _ & _ & [_ Hcookies] & _).
  vm_compute in He. injection He as <-.
  vm_compute in Hr. injection Hr as <-.
  vm_compute in Hcookies. discriminate.
Qed.

(** ** The middleware: key, lookup, admission and write-back *)

Lemma Response_new_rewrap b init r :
  Response_new (Some b) init = Ok r → ∃ r', Response_rewrap r = Ok r'.
Proof.
  unfold Response_new, Response_rewrap.
  destruct ((init_status init <? 200) || (599 <? init_status init)) eqn:H1; [done|].
  destruct (negb (is_reason_phrase (init_statusText init))) eqn:H2; [done|].
  destruct (bool_decide (Some b ≠ None) && null_body_status (init_status init))
    eqn:H3; [done|].
  intros [= <-]. unfold Response_new. simpl. rewrite H1, H2.
  rewrite bool_decide_eq_true_2 in H3 by done. simpl in H3. rewrite H3.
  eauto.
Qed.

Lemma get_some_rewrap {σ} (cm : CacheManager.t σ) key now w r w' :
  CacheManager.get cm key now w = (Ok (Some r), w') →
  ∃ r', Response_rewrap r = Ok r'.
Proof.
  unfold CacheManager.get, try_catch, bind, call, lift_exc, ret, console_log.
  destruct (getItem _ _ _) as [[[e|]|err] s]; simpl; [|done|done].
  destruct (isExpired _ _ _).
  - destruct (CacheManager.delete _ _ _) as [[[]|?] ?]; simpl; done.
  - destruct (CacheManager.deserializeResponse e) as [r0|] eqn:Hr; [|done].
    intros [= <- _]. by apply Response_new_rewrap in Hr.
Qed.

Lemma Pkg_key_eq {σ} (options : CacheOptions σ) c :
  resolveCacheName options c ++ ":" ++ Pkg.generateCacheKey c (keyGenerator options)
  = spec_cache_key (resolveCacheName options c) (keyGenerator options) c.
Proof. unfold spec_cache_key, Pkg.generateCacheKey. by destruct (keyGenerator options). Qed.

(** The handler after its lookup: a hit is wrapped and returned, a miss
    runs the admission check and the write-back. *)
Lemma Pkg_after_lookup {σ} (createStorage : Storage σ) (options : CacheOptions σ)
    (runtimeKey : string) (c : Context) (next : Response) (t_lookup t_persist : Z)
    (w : World σ) cached w1 :
  let key := spec_cache_key (resolveCacheName options c) (keyGenerator options) c in
  let cm := cacheManager createStorage options in
  CacheManager.get cm key t_lookup w = (Ok cached, w1) →
  Pkg.universalCache createStorage options runtimeKey c next t_lookup t_persist w
  = match cached with
    | Some cachedResponse =>
        (r <- lift_exc (Response_rewrap cachedResponse);;
         ret (mkOutcome r true NotAttempted)) w1
    | None =>
        (if negb (isCacheableStatus (res_status next) (statusCodes options)) then
           ret (mkOutcome next false NotAttempted)
         else
           res <- lift_exc (Response_clone next);;
           if String.eqb runtimeKey "workerd" then
             ec <- lift_exc (get_executionCtx c);;
             if waitUntil ec
             then ret (mkOutcome next false (WaitUntil (mkTask key res)))
             else ret (mkOutcome next false (Detached (mkTask key res)))
           else
             (run_task cm (mkTask key res) t_persist;;
              ret (mkOutcome next false Awaited))) w1
    end.
Proof.
  intros key cm Hget. unfold Pkg.universalCache. rewrite Pkg_key_eq.
  fold key cm. rewrite (bind_ok _ _ w cached w1 Hget). by destruct cached.
Qed.

(** On a miss the packaged middleware attempts the write exactly when the
    status is cacheable: neither the request method nor a [Vary] header
    enters the decision. *)
Lemma Pkg_admission_is_status_only {σ} (createStorage : Storage σ)
    (options : CacheOptions σ) (runtimeKey : string) (c : Context)
    (next : Response) (t_lookup t_persist : Z) (w : World σ) :
  let key := spec_cache_key (resolveCacheName options c) (keyGenerator options) c in
  let lookup := CacheManager.get (cacheManager createStorage options) key t_lookup w in
  found lookup.1 = false → res_bodyUsed next = false →
  (runtimeKey = "workerd" → is_Some (executionCtx c)) →
  ∃ out w',
    Pkg.universalCache createStorage options runtimeKey c next t_lookup t_persist w
    = (Ok out, w')
    ∧ out_response out = next
    ∧ (out_persist out ≠ NotAttempted
       ↔ isCacheableStatus (res_status next) (statusCodes options) = true).
Proof.
  intros key lookup Hmiss Hunread Hctx.
  destruct (get_never_throws (cacheManager createStorage options) key t_lookup w)
    as (cached & w1 & Hget).
  rewrite (Pkg_after_lookup createStorage options runtimeKey c next
             t_lookup t_persist w cached w1 Hget).
  unfold lookup in Hmiss. rewrite Hget in Hmiss. simpl in Hmiss.
  destruct cached as [cached|]; [done|].
  destruct (isCacheableStatus _ _); simpl.
  - unfold bind at 1, lift_exc, Response_clone. rewrite Hunread.
    destruct (String.eqb runtimeKey "workerd") eqn:Hrk.
    + apply String.eqb_eq in Hrk. destruct (Hctx Hrk) as [ec Hec].
      unfold bind, lift_exc, get_executionCtx. rewrite Hec.
      destruct (waitUntil ec); eexists _, _; by repeat split.
    + destruct (set_never_throws (cacheManager createStorage options) key next
                  t_persist w1) as [w2 Hset].
      unfold bind, run_task. simpl. fold key. rewrite Hset.
      eexists _, _. by repeat split.
  - eexists _, _. repeat split; done.
Qed.

(** The key of the packaged middleware, for every backend: the namespace is
    [options.cacheName], or what it returns for the request when it is a
    function; the key body is what [keyGenerator] returns, or the method, a
    colon and the URL.  A hit is exactly a successful [CacheManager.get] of
    that key, an awaited write is [CacheManager.set] of that key, and a
    scheduled write carries that key. *)
Lemma Pkg_cache_key {σ} (createStorage : Storage σ) (options : CacheOptions σ)
    (runtimeKey : string) (c : Context) (next : Response) (t_lookup t_persist : Z)
    (w : World σ) :
  let namespace := match cacheName options with
                   | inl name => name
                   | inr nameFn => nameFn c
                   end in
  let key := namespace ++ ":" ++
             match keyGenerator options with
             | Some keyFn => keyFn c
             | None => req_method c ++ ":" ++ req_url c
             end in
  let cm := cacheManager createStorage options in
  let lookup := CacheManager.get cm key t_lookup w in
  let run := Pkg.universalCache createStorage options runtimeKey c next
               t_lookup t_persist w in
  (found lookup.1 = true →
     ∃ out, run = (Ok out, lookup.2) ∧ out_hit out = true)
  ∧ (found lookup.1 = false →
     match run.1 with
     | Ok out =>
         out_hit out = false
         ∧ match out_persist out with
           | NotAttempted => run.2 = lookup.2
           | Awaited => run.2 = (CacheManager.set cm key next t_persist lookup.2).2
           | WaitUntil task | Detached task => task_key task = key ∧ run.2 = lookup.2
           end
     | Throw _ => run.2 = lookup.2
     end).
Proof.
  intros namespace key cm lookup run.
  assert (Hkey : key = spec_cache_key (resolveCacheName options c)
                         (keyGenerator options) c) by reflexivity.
  destruct (get_never_throws cm key t_lookup w) as (cached & w1 & Hget).
  unfold run, lookup.
  rewrite Hkey in Hget.
  rewrite (Pkg_after_lookup createStorage options runtimeKey c next
             t_lookup t_persist w cached w1 Hget).
  rewrite <- Hkey in *. rewrite Hget. simpl.
  destruct cached as [cached|]; simpl; [split; [intros _|done]|split; [done|intros _]].
  - destruct (get_some_rewrap cm key t_lookup w cached w1 Hget) as [r' Hr'].
    unfold bind, lift_exc, ret. rewrite Hr'. eauto.
  - destruct (negb (isCacheableStatus _ _)); [done|].
    unfold bind at 1, lift_exc, Response_clone, ret.
    destruct (res_bodyUsed next); [done|].
    destruct (String.eqb runtimeKey "workerd").
    + unfold bind, lift_exc, get_executionCtx.
      destruct (executionCtx c) as [[[]]|]; done.
    + unfold bind, run_task. simpl. fold cm.
      destruct (set_never_throws cm key next t_persist w1) as [w2 Hset].
      by rewrite Hset.
Qed.

(** C5 (what the code does): the copy of [generateCacheKey] at the
    repository root returns the URL alone.  Without a key function a GET
    and a POST of one URL get the same key, [namespace:url], and the root
    middleware schedules the write of the POST response under it; the
    packaged copy puts the method in front, as the claim says. *)
Theorem C5_root_key_omits_method :
  let options := named_options "api" in
  let url := "http://localhost/api?x=1" in
  let post := hooked_request "POST" url in
  let get := hooked_request "GET" url in
  keyGenerator options = None
  ∧ Legacy.generateCacheKey post (keyGenerator options) = "http://localhost/api?x=1"
  ∧ Legacy.generateCacheKey get (keyGenerator options)
    = Legacy.generateCacheKey post (keyGenerator options)
  ∧ (Legacy.universalCache memoryStorage options post text_response
       1000 fresh_world).1
    = Ok (mkOutcome text_response false
            (WaitUntil (mkTask "api:http://localhost/api?x=1" text_response)))
  ∧ Pkg.generateCacheKey post (keyGenerator options)
    = "POST:http://localhost/api?x=1"
  ∧ (Pkg.universalCache memoryStorage options "workerd" post text_response
       1000 1001 fresh_world).1
    = Ok (mkOutcome text_response false
            (WaitUntil (mkTask "api:POST:http://localhost/api?x=1" text_response))).
Proof. repeat split. Qed.

(** How the packaged middleware schedules the write of an admitted miss:
    when the runtime key is [workerd] and the execution context offers
    [waitUntil], the write is handed to the hook and nothing has been
    written when the middleware returns; on every other runtime the write
    has completed when the middleware returns, whether or not a hook is
    offered. *)
Lemma Pkg_write_back_scheduling {σ} (createStorage : Storage σ)
    (options : CacheOptions σ) (runtimeKey : string) (c : Context)
    (next : Response) (t_lookup t_persist : Z) (w : World σ) :
  let key := spec_cache_key (resolveCacheName options c) (keyGenerator options) c in
  let cm := cacheManager createStorage options in
  let lookup := CacheManager.get cm key t_lookup w in
  let run := Pkg.universalCache createStorage options runtimeKey c next
               t_lookup t_persist w in
  found lookup.1 = false →
  isCacheableStatus (res_status next) (statusCodes options) = true →
  res_bodyUsed next = false →
  (runtimeKey = "workerd" → offers_waitUntil c = true →
     run = (Ok (mkOutcome next false (WaitUntil (mkTask key next))), lookup.2))
  ∧ (runtimeKey ≠ "workerd" →
     run = (Ok (mkOutcome next false Awaited),
            (run_task cm (mkTask key next) t_persist lookup.2).2)).
Proof.
  intros key cm lookup run Hmiss Hstatus Hunread.
  destruct (get_never_throws cm key t_lookup w) as (cached & w1 & Hget).
  unfold run, lookup in *.
  rewrite (Pkg_after_lookup createStorage options runtimeKey c next
             t_lookup t_persist w cached w1 Hget).
  rewrite Hget in *. simpl in *. destruct cached as [cached|]; [done|].
  rewrite Hstatus. simpl.
  split.
  - intros -> Hhook. unfold bind, lift_exc, Response_clone, get_executionCtx.
    rewrite Hunread. simpl. unfold offers_waitUntil in Hhook.
    destruct (executionCtx c) as [ec|]; [|done]. by rewrite Hhook.
  - intros Hrt. apply String.eqb_neq in Hrt.
    destruct (set_never_throws cm key next t_persist w1) as [w2 Hset].
    unfold bind, lift_exc, Response_clone, run_task. rewrite Hunread, Hrt.
    simpl. fold key cm. by rewrite Hset.
Qed.

(** C7 (what the code does): on Vercel Edge, where [getRuntimeKey()] is
    [edge-light], an execution context that offers [waitUntil] is not used:
    on an admitted miss the packaged middleware awaits the write, which has
    reached the backend when the middleware returns.  The same request in a
    Workers runtime is handed to the hook and nothing has been written on
    return. *)
Theorem C7_edge_hook_is_not_used :
  let options := named_options "c" in
  let c := hooked_request "GET" "http://localhost/api" in
  let key := "c:GET:http://localhost/api" in
  let edge := Pkg.universalCache memoryStorage options "edge-light" c
                text_response 1000 1001 fresh_world in
  let workers := Pkg.universalCache memoryStorage options "workerd" c
                   text_response 1000 1001 fresh_world in
  offers_waitUntil c = true
  ∧ found (CacheManager.get (cacheManager memoryStorage options) key 1000
             fresh_world).1 = false
  ∧ isCacheableStatus (res_status text_response) (statusCodes options) = true
  ∧ edge.1 = Ok (mkOutcome text_response false Awaited)
  ∧ mem_items (store edge.2) !! key
    = Some (mkCached "Hello World" [("content-type", "text/plain")] 200 "OK" 1001)
  ∧ workers
    = (Ok (mkOutcome text_response false (WaitUntil (mkTask key text_response))),
       fresh_world).
Proof. vm_compute. repeat split. Qed.

(** ** The middleware: admission *)

(** C1 (what the code does): under the default options the packaged
    middleware stores the response to a POST request; nothing in it reads
    the request method, and [CacheOptions] has no bypass flag. *)
Theorem C1_post_response_is_stored :
  let options := named_options "no-entry-cache" in
  let c := plain_request "POST" "http://localhost/api" in
  let run := Pkg.universalCache memoryStorage options "node" c text_response
               1000 1001 fresh_world in
  run.1 = Ok (mkOutcome text_response false Awaited)
  ∧ mem_items (store run.2) !! "no-entry-cache:POST:http://localhost/api"
    = Some (mkCached "Hello World" [("content-type", "text/plain")] 200 "OK" 1001)
  ∧ (Pkg.universalCache memoryStorage options "node" c text_response
       2000 2001 run.2).1
    = Ok (mkOutcome
            (mkResponse (Some "Hello World") false
               [("content-type", "text/plain")] 200 "OK")
            true NotAttempted).
Proof. vm_compute. repeat split. Qed.

(** The copy at the repository root gates on the method no more than the
    packaged one: the write of a POST response is scheduled. *)
Lemma Legacy_post_response_is_scheduled :
  (Legacy.universalCache memoryStorage (named_options "no-entry-cache")
     (hooked_request "POST" "http://localhost/api") text_response
     1000 fresh_world).1
  = Ok (mkOutcome text_response false
          (WaitUntil (mkTask "no-entry-cache:http://localhost/api" text_response))).
Proof. reflexivity. Qed.

(** C2 (what the code does): the packaged middleware stores a response that
    carries [Vary: *] and serves it from the cache afterwards. *)
Theorem C2_vary_star_is_stored :
  let options := named_options "vary-cache" in
  let c := plain_request "GET" "http://localhost/vary" in
  let run := Pkg.universalCache memoryStorage options "node" c vary_response
               1000 1001 fresh_world in
  Headers_get (res_headers vary_response) "Vary" = Some "*"
  ∧ run.1 = Ok (mkOutcome vary_response false Awaited)
  ∧ is_Some (mem_items (store run.2) !! "vary-cache:GET:http://localhost/vary")
  ∧ match (Pkg.universalCache memoryStorage options "node" c vary_response
             2000 2001 run.2).1 with
    | Ok out => out_hit out = true
    | Throw _ => False
    end.
Proof. vm_compute. repeat split; eauto. Qed.

(** The copy at the repository root rejects such a response: it is handed
    back as it is and no write is attempted. *)
Lemma Legacy_vary_star_rejected {σ} (createStorage : Storage σ)
    (options : CacheOptions σ) (c : Context) (next : Response) (t_lookup : Z)
    (w : World σ) (vary : string) :
  let key := resolveCacheName options c ++ ":"
             ++ Legacy.generateCacheKey c (keyGenerator options) in
  let lookup := CacheManager.get (cacheManager createStorage options) key t_lookup w in
  Headers_get (res_headers next) "Vary" = Some vary →
  includes_char "*" vary = true →
  found lookup.1 = false →
  Legacy.universalCache createStorage options c next t_lookup w
  = (Ok (mkOutcome next false NotAttempted), lookup.2).
Proof.
  intros key lookup Hvary Hstar Hmiss.
  destruct (get_never_throws (cacheManager createStorage options) key t_lookup w)
    as (cached & w1 & Hget).
  unfold lookup in *. unfold Legacy.universalCache. fold key.
  rewrite (bind_ok _ _ w cached w1 Hget). rewrite Hget in *. simpl in *.
  destruct cached; [done|].
  destruct (negb (isCacheableStatus _ _)); [done|].
  unfold Legacy.shouldSkipCache. by rewrite Hvary, Hstar.
Qed.

(** The copy at the repository root never waits for the write: with a hook
    the write is registered, without one it is left running on its own (or
    the handler throws, when there is no execution context at all). *)
Lemma Legacy_write_is_never_awaited {σ} (createStorage : Storage σ)
    (options : CacheOptions σ) (c : Context) (next : Response) (t_lookup : Z)
    (w : World σ) :
  let key := resolveCacheName options c ++ ":"
             ++ Legacy.generateCacheKey c (keyGenerator options) in
  let lookup := CacheManager.get (cacheManager createStorage options) key t_lookup w in
  let run := Legacy.universalCache createStorage options c next t_lookup w in
  run.2 = lookup.2
  ∧ match run.1 with
    | Ok out => out_persist out ≠ Awaited
    | Throw _ => True
    end.
Proof.
  intros key lookup run.
  destruct (get_never_throws (cacheManager createStorage options) key t_lookup w)
    as (cached & w1 & Hget).
  unfold run, lookup, Legacy.universalCache. fold key.
  rewrite (bind_ok _ _ w cached w1 Hget), Hget. simpl.
  destruct cached as [cached|].
  - unfold bind, lift_exc, ret. by destruct (Response_rewrap cached).
  - destruct (negb (isCacheableStatus _ _)); [done|].
    destruct (Legacy.shouldSkipCache next); [done|].
    unfold bind, lift_exc, Response_clone, ret.
    destruct (res_bodyUsed next); [done|].
    unfold get_executionCtx. by destruct (executionCtx c) as [[[]]|].
Qed.

(** * Further properties of the code *)

(** ** CacheManager on the in-process backend: what each method does *)

Lemma world_eta {σ} (w : World σ) : mkWorld (store w) (console w) = w.
Proof. by destruct w. Qed.

Lemma mem_eta (s : MemState) : mkMem (mem_items s) (mem_meta s) = s.
Proof. by destruct s. Qed.

Lemma get_memory (ttl : option Z) key now (w : World MemState) :
  CacheManager.get (CacheManager.new memoryStorage ttl) key now w
  = match mem_items (store w) !! key with
    | None => (Ok None, w)
    | Some e =>
        if isExpired now (cachedAt e) ttl then
          (Ok None,
           mkWorld (mkMem (delete key (mem_items (store w))) (mem_meta (store w)))
             (console w))
        else
          match CacheManager.deserializeResponse e with
          | Ok r => (Ok (Some r), w)
          | Throw err =>
              (Ok None,
               mkWorld (store w)
                 (console w ++ [ConsoleError "Cache retrieval error:" err])%list)
          end
    end.
Proof.
  destruct (mem_items (store w) !! key) as [e|] eqn:Hk.
  - destruct (isExpired now (cachedAt e) ttl) eqn:Hexp.
    + rewrite (get_expired _ key now w e (store w)); [done| |done].
      simpl. by rewrite Hk.
    + destruct (CacheManager.deserializeResponse e) as [r|err] eqn:Hr.
      * rewrite (get_fresh _ key now w e (store w) r); [|simpl; by rewrite Hk|done|done].
        by rewrite world_eta.
      * rewrite (get_unbuildable _ key now w e (store w) err);
          [done|simpl; by rewrite Hk|done|done].
  - rewrite (get_missing _ key now w (store w)); [|simpl; by rewrite Hk].
    by rewrite world_eta.
Qed.

Lemma has_memory (ttl : option Z) key now (w : World MemState) :
  CacheManager.has (CacheManager.new memoryStorage ttl) key now w
  = (Ok match mem_items (store w) !! key with
        | Some e => negb (isExpired now (cachedAt e) ttl)
        | None => false
        end, w).
Proof.
  unfold CacheManager.has, try_catch, bind, call. simpl.
  rewrite world_eta. by destruct (mem_items (store w) !! key).
Qed.

Lemma delete_memory (ttl : option Z) key (w : World MemState) :
  CacheManager.delete (CacheManager.new memoryStorage ttl) key w
  = (Ok tt,
     mkWorld (mkMem (delete key (mem_items (store w))) (mem_meta (store w)))
       (console w)).
Proof. reflexivity. Qed.

Lemma clear_memory (ttl : option Z) (w : World MemState) :
  CacheManager.clear (CacheManager.new memoryStorage ttl) w
  = (Ok tt, mkWorld (mkMem ∅ ∅) (console w)).
Proof. reflexivity. Qed.

Lemma keys_memory (ttl : option Z) (w : World MemState) :
  CacheManager.keys (CacheManager.new memoryStorage ttl) w
  = (Ok (map_to_list (mem_items (store w))).*1, w).
Proof.
  unfold CacheManager.keys, try_catch, call. simpl. by rewrite world_eta.
Qed.

Lemma elem_of_keys_memory (items : gmap string CachedResponse) k :
  k ∈ (map_to_list items).*1 ↔ is_Some (items !! k).
Proof.
  rewrite list_elem_of_fmap. split.
  - intros ([k' e] & -> & He). apply elem_of_map_to_list in He. by exists e.
  - intros [e He]. exists (k, e). split; [done|]. by apply elem_of_map_to_list.
Qed.

(** ** CacheManager: delete, clear, keys *)

(** X1: after [delete(key)] the key is gone for [has] and for [get], at any
    time and under any TTL, whatever was stored under it; [delete] itself
    returns normally and logs nothing. *)
Theorem delete_then_absent (ttl : option Z) (key : string) (now : Z)
    (w : World MemState) :
  let cm := CacheManager.new memoryStorage ttl in
  let w1 := (CacheManager.delete cm key w).2 in
  (CacheManager.delete cm key w).1 = Ok tt
  ∧ console w1 = console w
  ∧ (CacheManager.has cm key now w1).1 = Ok false
  ∧ (CacheManager.get cm key now w1).1 = Ok None.
Proof.
  intros cm w1. unfold w1, cm. rewrite delete_memory.
  rewrite !has_memory, !get_memory. simpl.
  by rewrite lookup_delete_eq.
Qed.

Lemma delete_then_absent_witness :
  let cm := CacheManager.new memoryStorage None in
  let w := (CacheManager.set cm "delete-key" text_response 1000 fresh_world).2 in
  let w1 := (CacheManager.delete cm "delete-key" w).2 in
  (CacheManager.has cm "delete-key" 2000 w).1 = Ok true
  ∧ (CacheManager.has cm "delete-key" 2000 w1).1 = Ok false.
Proof.
  intros cm w w1. split; [reflexivity|].
  exact (proj1 (proj2 (proj2 (delete_then_absent None "delete-key" 2000 w)))).
Defined.

(** X2: [delete], [clear] and [keys] never throw, whatever the backend does;
    when [getKeys] throws, [keys] answers the empty list, and when
    [removeItem] or [clear] throw the failure is only logged. *)
Theorem housekeeping_fail_open {σ} (cm : CacheManager.t σ) (key : string)
    (w : World σ) :
  (∃ w', CacheManager.delete cm key w = (Ok tt, w'))
  ∧ (∃ w', CacheManager.clear cm w = (Ok tt, w'))
  ∧ (∃ ks w', CacheManager.keys cm w = (Ok ks, w'))
  ∧ (∀ e s, getKeys (CacheManager.storage cm) (store w) = (Throw e, s) →
       CacheManager.keys cm w
       = (Ok [], mkWorld s (console w
                            ++ [ConsoleError "Cache keys retrieval error:" e])%list))
  ∧ (∀ e s, removeItem (CacheManager.storage cm) key (store w) = (Throw e, s) →
       CacheManager.delete cm key w
       = (Ok tt, mkWorld s (console w
                            ++ [ConsoleError "Cache deletion error:" e])%list))
  ∧ (∀ e s, clear (CacheManager.storage cm) (store w) = (Throw e, s) →
       CacheManager.clear cm w
       = (Ok tt, mkWorld s (console w
                            ++ [ConsoleError "Cache clear error:" e])%list)).
Proof.
  split; [apply delete_never_throws|].
  split.
  { unfold CacheManager.clear, try_catch, call, storage_clear.
    destruct (clear _ _) as [[[]|e] s]; simpl; eauto. }
  split.
  { unfold CacheManager.keys, try_catch, call, bind, console_log, ret.
    destruct (getKeys _ _) as [[ks|e] s]; simpl; eauto. }
  split; [|split].
  - intros e s H. unfold CacheManager.keys, try_catch, call. by rewrite H.
  - intros e s H. unfold CacheManager.delete, try_catch, call. by rewrite H.
  - intros e s H. unfold CacheManager.clear, try_catch, call, storage_clear.
    by rewrite H.
Qed.

Lemma housekeeping_fail_open_witness :
  let cm := CacheManager.new (@brokenStorage MemState) None in
  getKeys (CacheManager.storage cm) (store fresh_world)
  = (Throw (StorageError "connection refused"), empty_mem)
  ∧ (CacheManager.keys cm fresh_world).1 = Ok [].
Proof.
  intros cm.
  pose proof (housekeeping_fail_open cm "k" fresh_world) as (_ & _ & _ & H & _).
  split; [reflexivity|]. by rewrite (H _ _ eq_refl).
Defined.

(** X3: after [clear()] no key is listed and no key is found, whatever was
    stored before. *)
Theorem clear_then_empty (ttl : option Z) (key : string) (now : Z)
    (w : World MemState) :
  let cm := CacheManager.new memoryStorage ttl in
  let w1 := (CacheManager.clear cm w).2 in
  (CacheManager.keys cm w1).1 = Ok []
  ∧ (CacheManager.has cm key now w1).1 = Ok false
  ∧ (CacheManager.get cm key now w1).1 = Ok None.
Proof.
  intros cm w1. unfold w1, cm. rewrite clear_memory, keys_memory, has_memory, get_memory.
  simpl. rewrite lookup_empty, map_to_list_empty. done.
Qed.

(** ** CacheManager: lazy expiry and what a read changes *)

(** X5: a [get] that finds the entry expired answers absent and removes
    the entry from the backend: afterwards nothing is stored under the key
    and [keys()] does not list it. *)
Theorem expired_get_evicts (S now : Z) (key : string) (w : World MemState)
    (e : CachedResponse) :
  0 < S → mem_items (store w) !! key = Some e → cachedAt e + S * 1000 < now →
  let cm := CacheManager.new memoryStorage (Some S) in
  let w1 := (CacheManager.get cm key now w).2 in
  (CacheManager.get cm key now w).1 = Ok None
  ∧ mem_items (store w1) !! key = None
  ∧ (∀ ks, (CacheManager.keys cm w1).1 = Ok ks → key ∉ ks)
  ∧ (CacheManager.has cm key now w1).1 = Ok false.
Proof.
  intros HS He Hlate cm w1. unfold w1, cm. rewrite get_memory, He.
  rewrite isExpired_positive by done.
  replace (now >? cachedAt e + S * 1000) with true by lia. simpl.
  split; [done|]. split; [apply lookup_delete_eq|]. split.
  - intros ks [= <-].
    rewrite elem_of_keys_memory, lookup_delete_eq. by intros [? ?].
  - rewrite has_memory. simpl. by rewrite lookup_delete_eq.
Qed.

Lemma expired_get_evicts_witness :
  let cm := CacheManager.new memoryStorage (Some 1) in
  let w := (CacheManager.set cm "expire-me" text_response 1000 fresh_world).2 in
  let e := mkCached "Hello World" [("content-type", "text/plain")] 200 "OK" 1000 in
  (0 < 1 ∧ mem_items (store w) !! "expire-me" = Some e ∧ cachedAt e + 1 * 1000 < 2100)
  ∧ (CacheManager.get cm "expire-me" 2100 w).1 = Ok None
  ∧ mem_items (store (CacheManager.get cm "expire-me" 2100 w).2) !! "expire-me" = None.
Proof.
  intros cm w e.
  assert (He : mem_items (store w) !! "expire-me" = Some e) by (vm_compute; reflexivity).
  assert (Hlate : cachedAt e + 1 * 1000 < 2100) by (simpl; lia).
  pose proof (expired_get_evicts 1 2100 "expire-me" w e ltac:(lia) He Hlate)
    as (H1 & H2 & _).
  split; [split; [lia|split; [exact He|exact Hlate]]|].
  split; [exact H1|exact H2].
Defined.

(** X6: [has] reaches the backend through [getItem] only: it gives the same
    answer and leaves the same state on any two backends that agree on
    [getItem], so unlike [get] it never removes an expired entry. *)
Theorem has_only_reads {σ} (st st' : Storage σ) (ttl : option Z) (key : string)
    (now : Z) (w : World σ) :
  getItem st = getItem st' →
  CacheManager.has (CacheManager.new st ttl) key now w
  = CacheManager.has (CacheManager.new st' ttl) key now w.
Proof.
  intros H. unfold CacheManager.has, try_catch, bind, call. simpl. by rewrite H.
Qed.

Lemma has_only_reads_witness :
  let st' := with_removeItem memoryStorage (removeItem brokenStorage) in
  let cm := CacheManager.new memoryStorage (Some 1) in
  let w := (CacheManager.set cm "k" text_response 1000 fresh_world).2 in
  getItem memoryStorage = getItem st'
  ∧ CacheManager.has cm "k" 2100 w
    = CacheManager.has (CacheManager.new st' (Some 1)) "k" 2100 w.
Proof.
  intros st' cm w. split; [reflexivity|].
  exact (has_only_reads memoryStorage st' (Some 1) "k" 2100 w eq_refl).
Defined.

(** X7: [get] changes what is stored only by deleting the entry it found
    expired; a hit or a miss leaves the backend as it was, so [cachedAt] is
    never refreshed by a read. *)
Theorem get_changes_only_expired (ttl : option Z) (key : string) (now : Z)
    (w : World MemState) :
  let cm := CacheManager.new memoryStorage ttl in
  let out := CacheManager.get cm key now w in
  (store out.2 = store w
   ∨ ∃ e, mem_items (store w) !! key = Some e
          ∧ isExpired now (cachedAt e) ttl = true
          ∧ store out.2
            = mkMem (delete key (mem_items (store w))) (mem_meta (store w)))
  ∧ (found out.1 = true → out.2 = w).
Proof.
  intros cm out. unfold out, cm. rewrite get_memory.
  destruct (mem_items (store w) !! key) as [e|] eqn:He; [|by split; [left|]].
  destruct (isExpired now (cachedAt e) ttl) eqn:Hexp.
  - split; [right; by exists e|done].
  - destruct (CacheManager.deserializeResponse e); by split; [left|].
Qed.

Lemma get_changes_only_expired_witness :
  let cm := CacheManager.new memoryStorage (Some 60) in
  let w := (CacheManager.set cm "k" text_response 1000 fresh_world).2 in
  found (CacheManager.get cm "k" 2000 w).1 = true
  ∧ (CacheManager.get cm "k" 2000 w).2 = w.
Proof.
  intros cm w.
  assert (Hf : found (CacheManager.get cm "k" 2000 w).1 = true)
    by (vm_compute; reflexivity).
  split; [exact Hf|].
  exact (proj2 (get_changes_only_expired (Some 60) "k" 2000 w) Hf).
Defined.

(** ** CacheManager: writes *)



(** X9: [set] reaches the backend through [setItem] and [setMeta] of its
    own key only: on two backends that agree on these two operations at the
    key it returns the same, logs the same and leaves the same state, so a
    write never reads, removes or lists anything. *)
Theorem set_touches_one_key {σ} (st st' : Storage σ) (ttl : option Z)
    (key : string) (r : Response) (T : Z) (w : World σ) :
  setItem st key = setItem st' key → setMeta st key = setMeta st' key →
  CacheManager.set (CacheManager.new st ttl) key r T w
  = CacheManager.set (CacheManager.new st' ttl) key r T w.
Proof.
  intros Hitem Hmeta.
  unfold CacheManager.set, try_catch, bind, lift_exc, call. simpl.
  by rewrite Hitem, Hmeta.
Qed.

Lemma set_touches_one_key_witness :
  let st' := {| getItem := getItem brokenStorage;
                setItem := setItem memoryStorage;
                setMeta := setMeta memoryStorage;
                removeItem := removeItem brokenStorage;
                clear := clear brokenStorage;
                getKeys := getKeys brokenStorage |} in
  (setItem memoryStorage "k" = setItem st' "k"
   ∧ setMeta memoryStorage "k" = setMeta st' "k")
  ∧ CacheManager.set (CacheManager.new memoryStorage (Some 60)) "k" text_response
      1000 fresh_world
    = CacheManager.set (CacheManager.new st' (Some 60)) "k" text_response
        1000 fresh_world.
Proof.
  intros st'. split; [split; reflexivity|].
  exact (set_touches_one_key memoryStorage st' (Some 60) "k" text_response 1000
           fresh_world eq_refl eq_refl).
Defined.

(** X10: under a TTL other than zero a successful write records, beside the
    entry, a metadata record whose [mtime] is the entry's [cachedAt] and
    whose [expires] is [cachedAt + ttl * 1000], and [get]'s own expiry test
    agrees with it: the entry counts as expired exactly after [expires]. *)
Theorem set_records_expiry (S T : Z) (key : string) (r : Response)
    (w : World MemState) :
  S ≠ 0 → res_bodyUsed r = false →
  let w1 := (CacheManager.set (CacheManager.new memoryStorage (Some S)) key r T w).2 in
  ∃ e, mem_items (store w1) !! key = Some e
       ∧ cachedAt e = T
       ∧ mem_meta (store w1) !! key
         = Some {| mtime := T; expires := Some (T + S * 1000) |}
       ∧ ∀ now, isExpired now (cachedAt e) (Some S) = true ↔ T + S * 1000 < now.
Proof.
  intros HS Hunread w1. unfold w1.
  rewrite (set_memory (Some S) key r T w _ (serialize_unread r T Hunread)).
  simpl. replace (S =? 0) with false by lia. simpl.
  eexists. rewrite !lookup_insert_eq. split; [done|]. split; [done|].
  split; [done|]. intros now. unfold isExpired, truthy. simpl.
  replace (S =? 0) with false by lia. simpl. lia.
Qed.

Lemma set_records_expiry_witness :
  let w1 := (CacheManager.set (CacheManager.new memoryStorage (Some 60)) "k"
               text_response 1000 fresh_world).2 in
  (60 ≠ 0 ∧ res_bodyUsed text_response = false)
  ∧ mem_meta (store w1) !! "k" = Some {| mtime := 1000; expires := Some 61000 |}.
Proof.
  intros w1. split; [split; [lia|reflexivity]|].
  destruct (set_records_expiry 60 1000 "k" text_response fresh_world
              ltac:(lia) eq_refl) as (e & _ & _ & Hmeta & _).
  exact Hmeta.
Defined.

(** ** utils.ts: [isExpired] *)

(** X11: expiry is monotone: once an entry is expired it stays expired at
    every later time, and of two entries the older one expires first.  With a
    positive TTL an entry is fresh at the instant it was written; with a
    negative TTL it is expired from that instant on. *)
Theorem isExpired_monotone (now now' cachedAt cachedAt' S : Z) (ttl : option Z) :
  (isExpired now cachedAt ttl = true → now ≤ now' →
     isExpired now' cachedAt ttl = true)
  ∧ (isExpired now cachedAt' ttl = true → cachedAt ≤ cachedAt' →
     isExpired now cachedAt ttl = true)
  ∧ (0 < S → isExpired cachedAt cachedAt (Some S) = false)
  ∧ (S < 0 → cachedAt ≤ now → isExpired now cachedAt (Some S) = true).
Proof.
  unfold isExpired. repeat split.
  - destruct (negb (truthy ttl)); [done|]. lia.
  - destruct (negb (truthy ttl)); [done|]. lia.
  - intros HS. simpl. replace (S =? 0) with false by lia. simpl. lia.
  - intros HS Hnow. simpl. replace (S =? 0) with false by lia. simpl. lia.
Qed.

Lemma isExpired_monotone_witness :
  (isExpired 7200000 0 (Some 3600) = true ∧ 7200000 ≤ 7200001)
  ∧ isExpired 7200001 0 (Some 3600) = true.
Proof.
  split; [split; [reflexivity|lia]|].
  exact (proj1 (isExpired_monotone 7200000 7200001 0 0 1 (Some 3600))
           eq_refl ltac:(lia)).
Defined.

(** ** CacheManager: entries that never expire, entries that never return *)



(** X13: a response with a null body status (204, 205, 304) is stored by
    [set] but never returned by [get]: while the entry is not expired [has]
    answers true, every [get] answers absent, logs the failure of
    [new Response] and leaves the entry where it is. *)
Theorem null_body_entry_never_served (ttl : option Z) (T now : Z) (key : string)
    (r : Response) (w : World MemState) :
  res_bodyUsed r = false → null_body_status (res_status r) = true →
  let cm := CacheManager.new memoryStorage ttl in
  let w1 := (CacheManager.set cm key r T w).2 in
  is_Some (mem_items (store w1) !! key)
  ∧ (CacheManager.get cm key now w1).1 = Ok None
  ∧ (isExpired now T ttl = false →
     (CacheManager.has cm key now w1).1 = Ok true
     ∧ store (CacheManager.get cm key now w1).2 = store w1
     ∧ ∃ err, console (CacheManager.get cm key now w1).2
              = (console w1 ++ [ConsoleError "Cache retrieval error:" err])%list).
Proof.
  intros Hunread Hnull cm w1. unfold w1, cm.
  pose proof (serialize_unread r T Hunread) as He.
  rewrite (set_memory ttl key r T w _ He), has_memory, get_memory. simpl.
  rewrite lookup_insert_eq. simpl. split; [eauto|].
  set (e := {| body := default "" (res_body r);
               headers := serialized_headers (res_headers r);
               status := res_status r;
               statusText := res_statusText r;
               cachedAt := T |}).
  pose proof (deserialize_null_body_status e Hnull) as Hno.
  destruct (CacheManager.deserializeResponse e) as [r'|err] eqn:Hr; [done|].
  destruct (isExpired now T ttl); simpl; [by split|].
  split; [done|]. intros _. split; [done|]. split; [done|]. eauto.
Qed.

Lemma null_body_entry_never_served_witness :
  let cm := CacheManager.new memoryStorage None in
  let w1 := (CacheManager.set cm "empty-key" no_content 1000 fresh_world).2 in
  (res_bodyUsed no_content = false ∧ null_body_status (res_status no_content) = true)
  ∧ (CacheManager.get cm "empty-key" 1001 w1).1 = Ok None.
Proof.
  intros cm w1. split; [split; reflexivity|].
  exact (proj1 (proj2 (null_body_entry_never_served None 1000 1001 "empty-key"
                         no_content fresh_world eq_refl eq_refl))).
Defined.

(** ** The Codec: what a round trip keeps of the headers *)








(** ** src/utils.ts: [shouldSkipCache] *)

Lemma includes_char_app c (a b : string) :
  includes_char c (a ++ b) = includes_char c a || includes_char c b.
Proof.
  induction a as [|x a IH]; [done|]. simpl. by destruct (Ascii.eqb x c).
Qed.

Lemma includes_char_concat c (sep : string) (vs : list string) :
  includes_char c sep = false →
  includes_char c (String.concat sep vs) = true
  ↔ ∃ v, v ∈ vs ∧ includes_char c v = true.
Proof.
  intros Hsep. induction vs as [|v vs IH].
  - simpl. split; [done|]. by intros (v & ?%elem_of_nil & _).
  - destruct vs as [|v' vs].
    + simpl. split.
      * intros Hv. exists v. split; [left|done].
      * by intros (v0 & ->%list_elem_of_singleton & Hv).
    + change (String.concat sep (v :: v' :: vs))
        with (v ++ sep ++ String.concat sep (v' :: vs)).
      rewrite !includes_char_app, Hsep, orb_false_l, orb_true_iff, IH. split.
      * intros [Hv|(v0 & Hin & Hv0)]; [exists v; split; [left|done]|].
        exists v0. split; [by right|done].
      * intros (v0 & [->|Hin]%elem_of_cons & Hv0); [by left|].
        right. by exists v0.
Qed.

(** X16: [shouldSkipCache] answers true exactly when some header of the
    response whose name is [Vary] in any letter case has a value that
    contains an asterisk: the name is matched without regard to case, every
    [Vary] header counts, and the asterisk may stand anywhere in the
    value. *)
Theorem shouldSkipCache_iff (res : Response) :
  Legacy.shouldSkipCache res = true
  ↔ ∃ h, h ∈ res_headers res ∧ lower h.1 = "vary" ∧ includes_char "*" h.2 = true.
Proof.
  unfold Legacy.shouldSkipCache, Headers_get.
  assert (Hvs : ∀ v, v ∈ Headers_values (res_headers res) "Vary"
            ↔ ∃ h, h ∈ res_headers res ∧ lower h.1 = "vary" ∧ h.2 = v).
  { intros v. unfold Headers_values. rewrite list_elem_of_fmap. split.
    - intros (h & -> & [Hm Hin]%list_elem_of_filter). by exists h.
    - intros (h & Hin & Hm & <-). exists h. split; [done|].
      by apply list_elem_of_filter. }
  destruct (Headers_values (res_headers res) "Vary") as [|v vs] eqn:Hv.
  - split; [done|]. intros (h & Hin & Hm & _).
    assert (h.2 ∈ []) as ?%elem_of_nil; [|done]. apply Hvs. by exists h.
  - rewrite includes_char_concat by done. split.
    + intros (v0 & (h & Hin & Hm & <-)%Hvs & Hstar). by exists h.
    + intros (h & Hin & Hm & Hstar). exists h.2. split; [|done].
      apply Hvs. by exists h.
Qed.

(** ** The cache key of the packaged middleware *)

Lemma string_app_inv_head (p a b : string) : p ++ a = p ++ b → a = b.
Proof.
  induction p as [|x p IH]; [done|].
  change (String x (p ++ a) = String x (p ++ b) → a = b).
  intros [= H]. by apply IH.
Qed.

Lemma colon_split (a a' b b' : string) :
  includes_char ":" a = false → includes_char ":" a' = false →
  a ++ ":" ++ b = a' ++ ":" ++ b' → a = a' ∧ b = b'.
Proof.
  revert a'. induction a as [|x a IH]; intros [|x' a'] Ha Ha' Heq; simpl in Ha, Ha'.
  - change (String ":" b = String ":" b') in Heq. by injection Heq as ->.
  - change (String ":" b = String x' (a' ++ ":" ++ b')) in Heq.
    injection Heq as <- _. by rewrite Ascii.eqb_refl in Ha'.
  - change (String x (a ++ ":" ++ b) = String ":" b') in Heq.
    injection Heq as -> _. by rewrite Ascii.eqb_refl in Ha.
  - change (String x (a ++ ":" ++ b) = String x' (a' ++ ":" ++ b')) in Heq.
    injection Heq as -> Heq.
    destruct (Ascii.eqb x' ":"); [done|].
    by destruct (IH a' Ha Ha' Heq) as [-> ->].
Qed.

(** X17: under one static cache name and without a key function, two
    requests get the same cache key only if they have the same method and
    the same URL (a method, an HTTP token, holds no colon): different
    methods or URLs give different key strings. *)
Theorem default_keys_do_not_collide {σ} (options : CacheOptions σ) (name : string)
    (c c' : Context) :
  cacheName options = inl name → keyGenerator options = None →
  includes_char ":" (req_method c) = false →
  includes_char ":" (req_method c') = false →
  resolveCacheName options c ++ ":" ++ Pkg.generateCacheKey c (keyGenerator options)
  = resolveCacheName options c' ++ ":" ++ Pkg.generateCacheKey c' (keyGenerator options)
  ↔ req_method c = req_method c' ∧ req_url c = req_url c'.
Proof.
  intros Hname Hgen Hm Hm'. unfold resolveCacheName, Pkg.generateCacheKey.
  rewrite Hname, Hgen. split.
  - intros Heq%string_app_inv_head%(string_app_inv_head ":").
    by apply colon_split.
  - by intros [-> ->].
Qed.

Lemma default_keys_do_not_collide_witness :
  let options := named_options "api" in
  let c := plain_request "GET" "http://localhost/a:b" in
  let c' := plain_request "POST" "http://localhost/a:b" in
  (cacheName options = inl "api" ∧ keyGenerator options = None
   ∧ includes_char ":" (req_method c) = false
   ∧ includes_char ":" (req_method c') = false)
  ∧ (resolveCacheName options c ++ ":" ++ Pkg.generateCacheKey c (keyGenerator options)
     = resolveCacheName options c' ++ ":" ++ Pkg.generateCacheKey c' (keyGenerator options)
     ↔ req_method c = req_method c' ∧ req_url c = req_url c').
Proof.
  intros options c c'.
  split; [repeat split|].
  exact (default_keys_do_not_collide options "api" c c' eq_refl eq_refl eq_refl eq_refl).
Defined.

(** ** The middleware: when it throws, what a hit returns *)

Lemma Legacy_after_lookup {σ} (createStorage : Storage σ) (options : CacheOptions σ)
    (c : Context) (next : Response) (t_lookup : Z) (w : World σ) cached w1 :
  let key := resolveCacheName options c ++ ":"
             ++ Legacy.generateCacheKey c (keyGenerator options) in
  CacheManager.get (cacheManager createStorage options) key t_lookup w
  = (Ok cached, w1) →
  Legacy.universalCache createStorage options c next t_lookup w
  = match cached with
    | Some cachedResponse =>
        (r <- lift_exc (Response_rewrap cachedResponse);;
         ret (mkOutcome r true NotAttempted)) w1
    | None =>
        (if negb (isCacheableStatus (res_status next) (statusCodes options)) then
           ret (mkOutcome next false NotAttempted)
         else if Legacy.shouldSkipCache next then
           ret (mkOutcome next false NotAttempted)
         else
           res <- lift_exc (Response_clone next);;
           ec <- lift_exc (get_executionCtx c);;
           if waitUntil ec
           then ret (mkOutcome next false (WaitUntil (mkTask key res)))
           else ret (mkOutcome next false (Detached (mkTask key res)))) w1
    end.
Proof.
  intros key Hget. unfold Legacy.universalCache. fold key.
  rewrite (bind_ok _ _ w cached w1 Hget). by destruct cached.
Qed.

(** When the packaged middleware throws, for callbacks that return: on a
    miss with a cacheable status, when [c.res.clone()] fails because the body
    has been read, or when a Workers runtime finds no execution context. *)
Lemma universalCache_throws {σ} (createStorage : Storage σ)
    (options : CacheOptions σ) (runtimeKey : string) (c : Context)
    (next : Response) (t_lookup t_persist : Z) (w : World σ) :
  let key := spec_cache_key (resolveCacheName options c) (keyGenerator options) c in
  let lookup := CacheManager.get (cacheManager createStorage options) key t_lookup w in
  let run := Pkg.universalCache createStorage options runtimeKey c next
               t_lookup t_persist w in
  (is_ok run.1 = false
   ↔ found lookup.1 = false
     ∧ isCacheableStatus (res_status next) (statusCodes options) = true
     ∧ (res_bodyUsed next = true
        ∨ (runtimeKey = "workerd" ∧ executionCtx c = None)))
  ∧ (is_ok run.1 = false → run.2 = lookup.2).
Proof.
  intros key lookup run.
  destruct (get_never_throws (cacheManager createStorage options) key t_lookup w)
    as (cached & w1 & Hget).
  unfold run, lookup.
  rewrite (Pkg_after_lookup createStorage options runtimeKey c next
             t_lookup t_persist w cached w1 Hget), Hget. simpl.
  destruct cached as [cached|]; simpl.
  - destruct (get_some_rewrap _ key t_lookup w cached w1 Hget) as [r' Hr'].
    unfold bind, lift_exc, ret. rewrite Hr'. simpl. split; [|done].
    split; [done|]. by intros [? _].
  - destruct (isCacheableStatus _ _); simpl; [|intuition congruence].
    unfold bind at 1, lift_exc, Response_clone.
    destruct (res_bodyUsed next); simpl; [intuition congruence|].
    destruct (String.eqb runtimeKey "workerd") eqn:Hrk.
    + apply String.eqb_eq in Hrk. unfold bind, lift_exc, get_executionCtx.
      destruct (executionCtx c) as [[[]]|]; simpl; intuition congruence.
    + apply String.eqb_neq in Hrk.
      destruct (set_never_throws (cacheManager createStorage options) key next
                  t_persist w1) as [w2 Hset].
      unfold bind, run_task. simpl. fold key. rewrite Hset. simpl.
      intuition congruence.
Qed.

(** X18: when the packaged middleware throws.  The handler rejects exactly
    when the key callback or the cache-name callback throws (the cache is
    then not touched), or, both having returned, on a miss with a cacheable
    status when either the body of the downstream response has already been
    read, so that [c.res.clone()] fails, or the runtime is Workers and the
    request has no execution context.  In every other case a response is
    returned, whatever the backend does. *)
Theorem Pkg_throws_iff {σ} (createStorage : Storage σ)
    (cacheName : string + (Context → Exc string))
    (cacheableStatusCodes : option (list Z))
    (keyGenerator : option (Context → Exc string))
    (storage : option (Storage σ)) (ttl : option Z)
    (runtimeKey : string) (c : Context) (next : Response) (t_lookup t_persist : Z)
    (w : World σ) :
  let baseKey := match keyGenerator with
                 | Some keyGenerator => keyGenerator c
                 | None => Ok (req_method c ++ ":" ++ req_url c)
                 end in
  let name := match cacheName with
              | inl name => Ok name
              | inr cacheName => cacheName c
              end in
  let cm := CacheManager.new (default createStorage storage) ttl in
  let run := Pkg.handler createStorage cacheName cacheableStatusCodes keyGenerator
               storage ttl runtimeKey c next t_lookup t_persist w in
  (is_ok run.1 = false
   ↔ match baseKey, name with
     | Ok baseKey, Ok name =>
         found (CacheManager.get cm (name ++ ":" ++ baseKey) t_lookup w).1 = false
         ∧ res_status next ∈ default DEFAULT_CACHEABLE_STATUS_CODES cacheableStatusCodes
         ∧ (res_bodyUsed next = true
            ∨ (runtimeKey = "workerd" ∧ executionCtx c = None))
     | _, _ => True
     end)
  ∧ (is_ok baseKey && is_ok name = false → run.2 = w).
Proof.
  intros baseKey name cm run. unfold run, Pkg.handler, bind at 1, lift_exc.
  fold baseKey. destruct baseKey as [baseKey|err]; simpl; [|by split].
  unfold bind at 1. fold name. destruct name as [name|err]; simpl; [|by split].
  split; [|done].
  set (options := mkOptions (inl name) cacheableStatusCodes (Some (λ _, baseKey))
                    storage ttl).
  assert (Hcm : cacheManager createStorage options = cm).
  { unfold cacheManager, resolveStorage, cm. simpl. by destruct storage. }
  pose proof (universalCache_throws createStorage options runtimeKey c next
                t_lookup t_persist w) as [Hiff _].
  simpl in Hiff. rewrite Hcm in Hiff. rewrite Hiff.
  unfold isCacheableStatus, statusCodes. simpl.
  rewrite bool_decide_eq_true, elem_of_list_to_set. done.
Qed.

Lemma Pkg_throws_iff_witness :
  let boom : Context → Exc string := λ _, Throw (PlainError "no session") in
  let run := Pkg.handler memoryStorage (inl "api") None (Some boom)
               (Some memoryStorage) None "node"
               (plain_request "GET" "http://localhost/p") text_response
               1000 1001 fresh_world in
  let run' := Pkg.handler memoryStorage (inl "api") None None
                (Some memoryStorage) None "workerd"
                (plain_request "GET" "http://localhost/p") text_response
                1000 1001 fresh_world in
  run = (Throw (PlainError "no session"), fresh_world)
  ∧ is_ok run'.1 = false.
Proof.
  intros boom run run'. split; [reflexivity|].
  apply (Pkg_throws_iff memoryStorage (inl "api") None None (Some memoryStorage)
           None "workerd" (plain_request "GET" "http://localhost/p") text_response
           1000 1001 fresh_world).
  simpl. split; [reflexivity|]. split; [by left|]. right. by split.
Defined.



(** X20: a hit does not depend on what lies downstream: when the lookup
    finds an entry, the result is the same for every downstream response,
    every runtime and every later time, it carries the status, the status
    text and the body of the response the lookup rebuilt, and no write is
    prepared. *)
Theorem hit_ignores_downstream {σ} (createStorage : Storage σ)
    (options : CacheOptions σ) (runtimeKey : string) (c : Context)
    (next : Response) (t_lookup t_persist : Z) (w : World σ) (cached : Response) :
  let key := spec_cache_key (resolveCacheName options c) (keyGenerator options) c in
  let lookup := CacheManager.get (cacheManager createStorage options) key t_lookup w in
  let run := Pkg.universalCache createStorage options runtimeKey c next
               t_lookup t_persist w in
  lookup.1 = Ok (Some cached) →
  (∀ runtimeKey' next' t_persist',
     Pkg.universalCache createStorage options runtimeKey' c next' t_lookup t_persist' w
     = run)
  ∧ ∃ r, run = (Ok (mkOutcome r true NotAttempted), lookup.2)
         ∧ res_status r = res_status cached
         ∧ res_statusText r = res_statusText cached
         ∧ res_body r = res_body cached
         ∧ res_headers r = sort_and_combine (res_headers cached).
Proof.
  intros key lookup run Hhit.
  destruct (CacheManager.get (cacheManager createStorage options) key t_lookup w)
    as [res w1] eqn:Hget.
  unfold lookup in *. simpl in Hhit. subst res.
  split.
  - intros runtimeKey' next' t_persist'. unfold run.
    by rewrite !(Pkg_after_lookup createStorage options _ c _ t_lookup _ w
                   (Some cached) w1 Hget).
  - unfold run.
    rewrite (Pkg_after_lookup createStorage options runtimeKey c next t_lookup
               t_persist w (Some cached) w1 Hget).
    destruct (get_some_rewrap _ key t_lookup w cached w1 Hget) as [r' Hr'].
    unfold bind, lift_exc, ret. rewrite Hr'. exists r'. split; [done|].
    unfold Response_rewrap, Response_new in Hr'. simpl in Hr'.
    destruct (_ || _); [done|]. destruct (negb _); [done|].
    destruct (_ && _); [done|]. injection Hr' as <-. simpl.
    repeat split; try done; by destruct (res_body cached).
Qed.

Lemma hit_ignores_downstream_witness :
  let options := named_options "api" in
  let c := plain_request "GET" "http://localhost/p" in
  let w := (Pkg.universalCache memoryStorage options "node" c text_response
              1000 1001 fresh_world).2 in
  let cached := mkResponse (Some "Hello World") false
                  [("content-type", "text/plain")] 200 "OK" in
  (CacheManager.get (cacheManager memoryStorage options)
     "api:GET:http://localhost/p" 2000 w).1 = Ok (Some cached)
  ∧ Pkg.universalCache memoryStorage options "workerd" c no_content 2000 2001 w
    = Pkg.universalCache memoryStorage options "node" c text_response 2000 2002 w.
Proof.
  intros options c w cached. split; [reflexivity|].
  exact (proj1 (hit_ignores_downstream memoryStorage options "node" c text_response
                  2000 2002 w cached eq_refl) "workerd" no_content 2001).
Defined.

(** ** The middleware: deferred writes, the full cycle, a backend that is down *)


(** X21: deferring the write changes when it happens, not what it does.  On
    an admitted miss in a Workers runtime with a [waitUntil] hook nothing is
    written on return, and running the registered task at a time [t] leaves
    the backend and the console exactly as the same request leaves them in
    a runtime that awaits the write at that time. *)
Theorem deferred_write_same_effect {σ} (createStorage : Storage σ)
    (options : CacheOptions σ) (runtimeKey : string) (c : Context)
    (next : Response) (t_lookup t : Z) (w : World σ) :
  let key := spec_cache_key (resolveCacheName options c) (keyGenerator options) c in
  let cm := cacheManager createStorage options in
  let lookup := CacheManager.get cm key t_lookup w in
  let deferred := Pkg.universalCache createStorage options "workerd" c next
                    t_lookup t w in
  let inline := Pkg.universalCache createStorage options runtimeKey c next
                  t_lookup t w in
  found lookup.1 = false →
  isCacheableStatus (res_status next) (statusCodes options) = true →
  res_bodyUsed next = false →
  offers_waitUntil c = true → runtimeKey ≠ "workerd" →
  ∃ task,
    deferred = (Ok (mkOutcome next false (WaitUntil task)), lookup.2)
    ∧ inline.1 = Ok (mkOutcome next false Awaited)
    ∧ run_task cm task t deferred.2 = (Ok tt, inline.2).
Proof.
  intros key cm lookup deferred inline Hmiss Hstatus Hunread Hhook Hrk.
  destruct (get_never_throws cm key t_lookup w) as (cached & w1 & Hget).
  unfold deferred, inline, lookup in *.
  rewrite !(Pkg_after_lookup createStorage options _ c next t_lookup t w
              cached w1 Hget).
  fold key cm. rewrite Hget in *. simpl in Hmiss.
  destruct cached as [cached|]; [done|].
  rewrite Hstatus. simpl.
  apply String.eqb_neq in Hrk. rewrite Hrk.
  unfold offers_waitUntil in Hhook.
  destruct (executionCtx c) as [[[]]|] eqn:Hctx; try done.
  destruct (set_never_throws cm key next t w1) as [w2 Hset].
  unfold bind, lift_exc, Response_clone, get_executionCtx, run_task.
  rewrite Hunread, Hctx. simpl. fold key cm. rewrite Hset.
  exists (mkTask key next). simpl. by rewrite ?Hset.
Qed.

Lemma deferred_write_same_effect_witness :
  let options := named_options "api" in
  let c := hooked_request "GET" "http://localhost/p" in
  let deferred := Pkg.universalCache memoryStorage options "workerd" c text_response
                    1000 1500 fresh_world in
  let inline := Pkg.universalCache memoryStorage options "node" c text_response
                  1000 1500 fresh_world in
  (found (CacheManager.get (cacheManager memoryStorage options)
            "api:GET:http://localhost/p" 1000 fresh_world).1 = false
   ∧ isCacheableStatus (res_status text_response) (statusCodes options) = true
   ∧ res_bodyUsed text_response = false
   ∧ offers_waitUntil c = true ∧ "node" ≠ "workerd")
  ∧ ∃ task, deferred.1 = Ok (mkOutcome text_response false (WaitUntil task))
            ∧ run_task (cacheManager memoryStorage options) task 1500 deferred.2
              = (Ok tt, inline.2).
Proof.
  intros options c deferred inline.
  assert (Hrk : "node" ≠ "workerd") by discriminate.
  split; [repeat split; exact Hrk|].
  destruct (deferred_write_same_effect memoryStorage options "node" c text_response
              1000 1500 fresh_world eq_refl eq_refl eq_refl eq_refl Hrk)
    as (task & Hd & _ & Hrun).
  exists task. split; [|exact Hrun].
  unfold deferred. by rewrite Hd.
Defined.



(** What [set] leaves on the console: at most lines added after those that
    were there. *)
Lemma set_console_grows {σ} (cm : CacheManager.t σ) key r now (w : World σ) :
  ∃ later, console (CacheManager.set cm key r now w).2 = (console w ++ later)%list.
Proof.
  unfold CacheManager.set, try_catch, bind, lift_exc, call, console_log, ret.
  destruct (CacheManager.serializeResponse r now) as [e|err]; simpl;
    [|by eexists [_]].
  destruct (setItem _ _ _ _) as [[[]|e1] s1]; simpl; [|by eexists [_]].
  destruct (truthy _); simpl; [|exists []; by rewrite app_nil_r].
  destruct (setMeta _ _ _ _) as [[[]|e2] s2]; simpl; [|by eexists [_]].
  exists []. by rewrite app_nil_r.
Qed.

(** X23: a backend that is down is a miss.  When [getItem] throws, the
    packaged middleware logs the failure and goes on as on a miss: the
    request is never a hit, and a response it returns is the downstream
    response as it is.  It does return one whenever the downstream body is
    unread and, in a Workers runtime, the request has an execution
    context. *)
Theorem backend_down_passes_through {σ} (createStorage : Storage σ)
    (options : CacheOptions σ) (runtimeKey : string) (c : Context)
    (next : Response) (t_lookup t_persist : Z) (w : World σ) (e : JsError) (s : σ) :
  let key := spec_cache_key (resolveCacheName options c) (keyGenerator options) c in
  let run := Pkg.universalCache createStorage options runtimeKey c next
               t_lookup t_persist w in
  getItem (resolveStorage createStorage options).1 key (store w) = (Throw e, s) →
  (∃ later, console run.2
            = (console w ++ ConsoleError "Cache retrieval error:" e :: later)%list)
  ∧ (∀ out, run.1 = Ok out → out_response out = next ∧ out_hit out = false)
  ∧ (res_bodyUsed next = false →
     (runtimeKey = "workerd" → is_Some (executionCtx c)) →
     is_ok run.1 = true).
Proof.
  intros key run Hdown.
  pose proof (get_backend_failure (cacheManager createStorage options) key t_lookup
                w e s Hdown) as Hget.
  unfold run.
  rewrite (Pkg_after_lookup createStorage options runtimeKey c next t_lookup
             t_persist w None _ Hget).
  set (w1 := mkWorld s (console w ++ [ConsoleError "Cache retrieval error:" e])%list).
  assert (Hw1 : ∀ later, (console w1 ++ later)%list
            = (console w ++ ConsoleError "Cache retrieval error:" e :: later)%list).
  { intros later. unfold w1. simpl. by rewrite <- app_assoc. }
  destruct (isCacheableStatus _ _); simpl.
  2: { split; [exists []; by rewrite <- Hw1, app_nil_r|].
       split; [by intros out [= <-]|done]. }
  unfold bind at 1, lift_exc, Response_clone.
  destruct (res_bodyUsed next); simpl.
  { split; [exists []; by rewrite <- Hw1, app_nil_r|]. split; done. }
  destruct (String.eqb runtimeKey "workerd") eqn:Hrk.
  - apply String.eqb_eq in Hrk. unfold bind, lift_exc, get_executionCtx.
    destruct (executionCtx c) as [[[]]|]; simpl;
      (split; [exists []; by rewrite <- Hw1, app_nil_r|]);
      (split; [by intros out [= <-]|]); try done.
    intros _ Hctx. by destruct (Hctx Hrk).
  - destruct (set_never_throws (cacheManager createStorage options) key next
                t_persist w1) as [w2 Hset].
    destruct (set_console_grows (cacheManager createStorage options) key next
                t_persist w1) as [later Hlater].
    unfold bind, run_task. simpl. fold key. rewrite Hset in *. simpl in *.
    split; [exists later; by rewrite Hlater, Hw1|].
    split; [by intros out [= <-]|done].
Qed.

Lemma backend_down_passes_through_witness :
  let options := mkOptions (inl "api") None None (Some (@brokenStorage MemState)) None in
  let c := plain_request "GET" "http://localhost/p" in
  let run := Pkg.universalCache memoryStorage options "node" c text_response
               1000 1001 fresh_world in
  getItem (resolveStorage memoryStorage options).1 "api:GET:http://localhost/p"
    (store fresh_world)
  = (Throw (StorageError "connection refused"), empty_mem)
  ∧ run.1 = Ok (mkOutcome text_response false Awaited)
  ∧ is_ok run.1 = true.
Proof.
  intros options c run.
  assert (Hrk : "node" = "workerd" → is_Some (executionCtx c)) by discriminate.
  split; [reflexivity|]. split; [reflexivity|].
  exact (proj2 (proj2 (backend_down_passes_through memoryStorage options "node" c
                         text_response 1000 1001 fresh_world
                         (StorageError "connection refused") empty_mem eq_refl))
           eq_refl Hrk).
Defined.

(** ** CacheManager: a write that fails half way *)

(** X24: [set] writes the entry first and the metadata second, and undoes
    nothing.  When [setItem] throws, [setMeta] is not reached: the backend is
    left as [setItem] left it and one line is logged.  When [setItem]
    succeeds and [setMeta] throws, [set] still returns normally with one
    line logged, and the backend keeps what [setItem] wrote and what
    [setMeta] left. *)
Theorem set_stops_at_first_failure {σ} (st : Storage σ) (ttl : option Z)
    (key : string) (r : Response) (now : Z) (w : World σ) (e : CachedResponse) :
  CacheManager.serializeResponse r now = Ok e →
  let cm := CacheManager.new st ttl in
  let metadata := {| mtime := cachedAt e;
                     expires := Some (cachedAt e + default 0 ttl * 1000) |} in
  (∀ err s1, setItem st key e (store w) = (Throw err, s1) →
     CacheManager.set cm key r now w
     = (Ok tt, mkWorld s1 (console w ++ [ConsoleError "Cache storage error:" err])%list))
  ∧ (∀ s1 err s2, setItem st key e (store w) = (Ok tt, s1) →
       truthy ttl = true →
       setMeta st key metadata s1 = (Throw err, s2) →
       CacheManager.set cm key r now w
       = (Ok tt, mkWorld s2 (console w ++ [ConsoleError "Cache storage error:" err])%list))
  ∧ (∀ s1, setItem st key e (store w) = (Ok tt, s1) →
       truthy ttl = false →
       CacheManager.set cm key r now w = (Ok tt, mkWorld s1 (console w))).
Proof.
  intros He cm metadata.
  unfold cm, CacheManager.set, try_catch, bind, lift_exc, call, console_log, ret.
  rewrite He. simpl. repeat split.
  - intros err s1 ->. done.
  - intros s1 err s2 -> ->. simpl. unfold metadata. by intros ->.
  - intros s1 -> ->. done.
Qed.

Lemma set_stops_at_first_failure_witness :
  let st := with_setMeta memoryStorage (setMeta brokenStorage) in
  let cm := CacheManager.new st (Some 60) in
  let e := mkCached "Hello World" [("content-type", "text/plain")] 200 "OK" 1000 in
  let w1 := (CacheManager.set cm "k" text_response 1000 fresh_world).2 in
  CacheManager.serializeResponse text_response 1000 = Ok e
  ∧ (CacheManager.set cm "k" text_response 1000 fresh_world).1 = Ok tt
  ∧ mem_items (store w1) !! "k" = Some e
  ∧ mem_meta (store w1) !! "k" = None.
Proof.
  intros st cm e w1.
  pose proof (set_stops_at_first_failure st (Some 60) "k" text_response 1000
                fresh_world e eq_refl) as (_ & H & _).
  specialize (H (mkMem {[ "k" := e ]} ∅) (StorageError "connection refused")
                (mkMem {[ "k" := e ]} ∅) eq_refl eq_refl eq_refl).
  split; [reflexivity|]. unfold w1, cm. rewrite H. repeat split.
Defined.

(** ** The middleware: what is never written, where the two copies agree *)

(** X25: a response whose status is not among the configured codes (200
    alone when none are configured) is never written, by either copy of the
    middleware: the request is answered, no write is prepared, and the
    backend and the console are as the lookup left them, in every runtime
    and also when the body has been read; on a miss the downstream response
    is returned as it is. *)
Theorem unlisted_status_is_never_written {σ} (createStorage : Storage σ)
    (options : CacheOptions σ) (runtimeKey : string) (c : Context)
    (next : Response) (t_lookup t_persist : Z) (w : World σ) :
  let cm := cacheManager createStorage options in
  let key := spec_cache_key (resolveCacheName options c) (keyGenerator options) c in
  let key' := resolveCacheName options c ++ ":"
              ++ Legacy.generateCacheKey c (keyGenerator options) in
  res_status next ∉ default DEFAULT_CACHEABLE_STATUS_CODES (cacheableStatusCodes options) →
  (∃ cached w1,
     CacheManager.get cm key t_lookup w = (Ok cached, w1)
     ∧ (Pkg.universalCache createStorage options runtimeKey c next
          t_lookup t_persist w).2 = w1
     ∧ ∃ out, (Pkg.universalCache createStorage options runtimeKey c next
                 t_lookup t_persist w).1 = Ok out
              ∧ out_persist out = NotAttempted
              ∧ (cached = None → out = mkOutcome next false NotAttempted))
  ∧ (∃ cached w1,
       CacheManager.get cm key' t_lookup w = (Ok cached, w1)
       ∧ (Legacy.universalCache createStorage options c next t_lookup w).2 = w1
       ∧ ∃ out, (Legacy.universalCache createStorage options c next t_lookup w).1
                = Ok out
                ∧ out_persist out = NotAttempted
                ∧ (cached = None → out = mkOutcome next false NotAttempted)).
Proof.
  intros cm key key' Hstatus.
  assert (Hno : isCacheableStatus (res_status next) (statusCodes options) = false).
  { unfold isCacheableStatus, statusCodes. apply bool_decide_eq_false.
    by rewrite elem_of_list_to_set. }
  split.
  - destruct (get_never_throws cm key t_lookup w) as (cached & w1 & Hget).
    exists cached, w1. split; [done|].
    rewrite (Pkg_after_lookup createStorage options runtimeKey c next
               t_lookup t_persist w cached w1 Hget).
    destruct cached as [cached|]; [|rewrite Hno; simpl; eauto].
    destruct (get_some_rewrap cm key t_lookup w cached w1 Hget) as [r Hr].
    unfold bind, lift_exc, ret. rewrite Hr. simpl. split; [done|].
    eexists. by repeat split.
  - destruct (get_never_throws cm key' t_lookup w) as (cached & w1 & Hget).
    exists cached, w1. split; [done|].
    rewrite (Legacy_after_lookup createStorage options c next t_lookup w cached w1 Hget).
    destruct cached as [cached|]; [|rewrite Hno; simpl; eauto].
    destruct (get_some_rewrap cm key' t_lookup w cached w1 Hget) as [r Hr].
    unfold bind, lift_exc, ret. rewrite Hr. simpl. split; [done|].
    eexists. by repeat split.
Qed.

Lemma unlisted_status_is_never_written_witness :
  let options := named_options "api" in
  let c := plain_request "GET" "http://localhost/missing" in
  let not_found := mkResponse (Some "Not Found") false
                     [("Content-Type", "text/plain")] 404 "Not Found" in
  let run := Pkg.universalCache memoryStorage options "node" c not_found
               1000 1001 fresh_world in
  (404 ∉ default DEFAULT_CACHEABLE_STATUS_CODES (cacheableStatusCodes options))
  ∧ run = (Ok (mkOutcome not_found false NotAttempted), fresh_world).
Proof.
  intros options c not_found run.
  assert (Hs : 404 ∉ default DEFAULT_CACHEABLE_STATUS_CODES
                       (cacheableStatusCodes options)).
  { simpl. unfold DEFAULT_CACHEABLE_STATUS_CODES.
    intros [=]%list_elem_of_singleton. }
  split; [exact Hs|].
  destruct (unlisted_status_is_never_written memoryStorage options "node" c
              not_found 1000 1001 fresh_world Hs)
    as [(cached & w1 & Hget & Hw & out & Hout & _ & Hmiss) _].
  injection Hget as <- <-.
  unfold run. rewrite (surjective_pairing (Pkg.universalCache _ _ _ _ _ _ _ _)).
  rewrite Hw, Hout. by rewrite (Hmiss eq_refl).
Defined.

(** X26: where the two copies of the middleware agree.  With a key
    function configured (so both build the same key), in a Workers runtime
    with its execution context, for a response that [shouldSkipCache] lets
    through, the packaged copy and the root copy give the same result and
    leave the same state, for every request, every downstream response and
    every backend. *)
Theorem copies_agree_on_workers {σ} (createStorage : Storage σ)
    (options : CacheOptions σ) (keyFn : Context → string) (c : Context)
    (next : Response) (t_lookup t_persist : Z) (w : World σ) :
  keyGenerator options = Some keyFn →
  Legacy.shouldSkipCache next = false →
  is_Some (executionCtx c) →
  Pkg.universalCache createStorage options "workerd" c next t_lookup t_persist w
  = Legacy.universalCache createStorage options c next t_lookup w.
Proof.
  intros Hgen Hvary _.
  unfold Pkg.universalCache, Legacy.universalCache,
    Pkg.generateCacheKey, Legacy.generateCacheKey.
  rewrite Hgen, Hvary. reflexivity.
Qed.

Lemma copies_agree_on_workers_witness :
  let options :=
    mkOptions (inl "api") None (Some req_url) (Some memoryStorage) None in
  let c := hooked_request "GET" "http://localhost/p" in
  (keyGenerator options = Some req_url
   ∧ Legacy.shouldSkipCache text_response = false
   ∧ is_Some (executionCtx c))
  ∧ Pkg.universalCache memoryStorage options "workerd" c text_response
      1000 1001 fresh_world
    = Legacy.universalCache memoryStorage options c text_response 1000 fresh_world.
Proof.
  intros options c.
  assert (Hctx : is_Some (executionCtx c)) by (by eexists).
  split; [split; [reflexivity|split; [reflexivity|exact Hctx]]|].
  exact (copies_agree_on_workers memoryStorage options req_url c text_response
           1000 1001 fresh_world eq_refl eq_refl Hctx).
Defined.
